(** * genai_dadi: the request normalizer and the response extractor of
    [index.js], embedded in Rocq.

    The file follows the source top to bottom: JavaScript values and the
    operators the program uses ([?.], [??], [||], [!]), [JSON.stringify],
    [extractGeneratedText], [Buffer.toString("base64")],
    [fileToGenerativePart] and the four POST handlers. *)

From Stdlib Require Import String Ascii List ZArith NArith Arith Lia Bool.
From Stdlib Require Import Strings.Byte DecimalString ZifyNat.
Import ListNotations.
Open Scope string_scope.

(** ** JavaScript values *)

Module JS.

(** A number is an integer, NaN or an infinity. Fractional numbers are left
    out: the program never computes with numbers, it only passes them on.
    [Int z] stands for a JavaScript number when [z] is a safe integer (at
    most 2^53 - 1 in absolute value); beyond that bound JavaScript rounds
    and prints differently, and the model does not follow it. *)
Inductive number :=
| Int (z : Z)
| NaN
| Infinity (negative : bool).

(** A string is a sequence of code units; the model keeps the code units
    below 256. An object is the list of its own properties in the order
    in which they are enumerated. A property is a data property or an
    accessor whose getter raises (a getter that returns [v] reads like a
    data property holding [v]). Functions and symbols are opaque: they are
    never called and their own members are left out. *)
#[warnings="-register-all"]
Inductive value :=
| VUndefined
| VNull
| VBool (b : bool)
| VNumber (n : number)
| VBigInt (z : Z)
| VString (s : string)
| VSymbol
| VFunction
| VArray (elems : list value)
| VObject (props : list property)
with property :=
| DataProperty (key : string) (enumerable : bool) (v : value)
| ThrowingAccessor (key : string) (enumerable : bool) (thrown : value).

Definition property_key (p : property) : string :=
  match p with
  | DataProperty k _ _ => k
  | ThrowingAccessor k _ _ => k
  end.

(** [{ k: v }] in an object literal: an enumerable data property. *)
Definition field (k : string) (v : value) : property := DataProperty k true v.

(** A completion: a normal result or a thrown value. *)
Inductive result (A : Type) :=
| Ok (a : A)
| Throw (e : value).
Arguments Ok {A} a.
Arguments Throw {A} e.

Definition bind {A B} (r : result A) (k : A -> result B) : result B :=
  match r with
  | Ok a => k a
  | Throw e => Throw e
  end.

Notation "x <- r ;; k" := (bind r (fun x => k))
  (at level 61, r at next level, right associativity).

(** [new Error(msg)] and its subclasses: [message] is an own property that
    is not enumerable. *)
Definition Error (message : string) : value :=
  VObject [DataProperty "message" false (VString message)].

Definition TypeError := Error.

(** ToBoolean *)
Definition truthy (v : value) : bool :=
  match v with
  | VUndefined | VNull => false
  | VBool b => b
  | VNumber (Int z) => negb (Z.eqb z 0)
  | VNumber NaN => false
  | VNumber (Infinity _) => true
  | VBigInt z => negb (Z.eqb z 0)
  | VString s => negb (String.eqb s EmptyString)
  | VSymbol | VFunction | VArray _ | VObject _ => true
  end.

Definition is_nullish (v : value) : bool :=
  match v with
  | VUndefined | VNull => true
  | _ => false
  end.

(** [a || b] *)
Definition or_else (a b : value) : value := if truthy a then a else b.

(** The key of [o[n]] for a number [n]. *)
Definition index_key (n : nat) : string :=
  NilZero.string_of_uint (Nat.to_uint n).

(** The array index a property key denotes, when it is a canonical one. *)
Definition array_index (k : string) : option nat :=
  match NilZero.uint_of_string k with
  | Some u =>
      let n := Nat.of_uint u in
      if String.eqb (index_key n) k then Some n else None
  | None => None
  end.

Fixpoint lookup (k : string) (props : list property) : option property :=
  match props with
  | [] => None
  | p :: rest => if String.eqb (property_key p) k then Some p else lookup k rest
  end.

Definition of_length (n : nat) : value := VNumber (Int (Z.of_nat n)).

(** [v.k] and [v[k]]. Inherited members are left out: no built-in
    prototype has a member named [response], [candidates], [content],
    [parts], [text], [prompt] or [0], and an error carries its [message] as
    an own property. *)
Definition Get (v : value) (k : string) : result value :=
  match v with
  | VUndefined =>
      Throw (TypeError ("Cannot read properties of undefined (reading '" ++ k ++ "')"))
  | VNull =>
      Throw (TypeError ("Cannot read properties of null (reading '" ++ k ++ "')"))
  | VString s =>
      match array_index k with
      | Some i =>
          match String.get i s with
          | Some c => Ok (VString (String c EmptyString))
          | None => Ok VUndefined
          end
      | None =>
          if String.eqb k "length" then Ok (of_length (String.length s))
          else Ok VUndefined
      end
  | VArray elems =>
      match array_index k with
      | Some i => Ok (nth i elems VUndefined)
      | None =>
          if String.eqb k "length" then Ok (of_length (List.length elems))
          else Ok VUndefined
      end
  | VObject props =>
      match lookup k props with
      | Some (DataProperty _ _ x) => Ok x
      | Some (ThrowingAccessor _ _ e) => Throw e
      | None => Ok VUndefined
      end
  | VBool _ | VNumber _ | VBigInt _ | VSymbol | VFunction => Ok VUndefined
  end.

(** [r?.k]: undefined when [r] is null or undefined, [r.k] otherwise. *)
Definition opt_get (r : result value) (k : string) : result value :=
  v <- r ;; if is_nullish v then Ok VUndefined else Get v k.

(** [a ?? b]: [b] is evaluated only when [a] is null or undefined. *)
Definition coalesce (a b : result value) : result value :=
  v <- a ;; if is_nullish v then b else Ok v.

Notation "r ?. k" := (opt_get r k) (at level 40, left associativity).
#[warnings="-postfix-notation-not-level-1"]
Notation "r ?.[ n ]" := (opt_get r (index_key n))
  (at level 40, left associativity, format "r ?.[ n ]").
Notation "a ?? b" := (coalesce a b) (at level 45, left associativity).

End JS.

Import JS.

(** ** JSON.stringify *)

Module JSON.

Definition quote : string := String "034"%char EmptyString.
Definition newline : string := String "010"%char EmptyString.

Definition hex_digit (n : nat) : ascii :=
  match String.get n "0123456789abcdef" with
  | Some c => c
  | None => "0"%char
  end.

(** The escape of one code unit inside a JSON string. *)
Definition escape (c : ascii) : string :=
  let n := nat_of_ascii c in
  if Ascii.eqb c "034"%char then "\" ++ quote
  else if Ascii.eqb c "\"%char then "\\"
  else if Nat.eqb n 8 then "\b"
  else if Nat.eqb n 9 then "\t"
  else if Nat.eqb n 10 then "\n"
  else if Nat.eqb n 12 then "\f"
  else if Nat.eqb n 13 then "\r"
  else if Nat.ltb n 32 then
    "\u00" ++ String (hex_digit (n / 16)) (String (hex_digit (n mod 16)) EmptyString)
  else String c EmptyString.

Fixpoint escape_all (s : string) : string :=
  match s with
  | EmptyString => EmptyString
  | String c rest => escape c ++ escape_all rest
  end.

Definition QuoteJSONString (s : string) : string := quote ++ escape_all s ++ quote.

Definition number_to_json (n : number) : string :=
  match n with
  | Int z => NilZero.string_of_int (Z.to_int z)
  | NaN | Infinity _ => "null"
  end.

(** The text of an array or an object from the texts of its members:
    compact when [gap] is empty, one member per line otherwise. *)
Definition wrap (opening closing gap stepback indent : string)
    (items : list string) : string :=
  match items with
  | [] => opening ++ closing
  | _ =>
      if String.eqb gap EmptyString
      then opening ++ String.concat "," items ++ closing
      else opening ++ newline ++ indent
           ++ String.concat ("," ++ newline ++ indent) items
           ++ newline ++ stepback ++ closing
  end.

Definition member (gap key text : string) : string :=
  QuoteJSONString key ++ ":"
  ++ (if String.eqb gap EmptyString then EmptyString else " ") ++ text.

(** SerializeJSONProperty: [None] stands for undefined. An undefined
    element of an array prints as null, an undefined member of an object is
    left out, only enumerable properties are read, and reading an accessor
    runs its getter. Functions are opaque and are never called, so a
    callable [toJSON] member, which [JSON.stringify] would call, is outside
    the model: [plain] below rules it out. *)
Fixpoint SerializeJSONProperty (gap indent : string) (v : value)
    {struct v} : result (option string) :=
  match v with
  | VUndefined | VSymbol | VFunction => Ok None
  | VNull => Ok (Some "null")
  | VBool true => Ok (Some "true")
  | VBool false => Ok (Some "false")
  | VNumber n => Ok (Some (number_to_json n))
  | VBigInt _ => Throw (TypeError "Do not know how to serialize a BigInt")
  | VString s => Ok (Some (QuoteJSONString s))
  | VArray elems =>
      items <-
        (fix elements (l : list value) : result (list string) :=
           match l with
           | [] => Ok []
           | x :: rest =>
               t <- SerializeJSONProperty gap (indent ++ gap) x ;;
               ts <- elements rest ;;
               Ok (match t with Some s => s | None => "null" end :: ts)
           end) elems ;;
      Ok (Some (wrap "[" "]" gap indent (indent ++ gap) items))
  | VObject props =>
      items <-
        (fix members (l : list property) : result (list string) :=
           match l with
           | [] => Ok []
           | DataProperty k true x :: rest =>
               t <- SerializeJSONProperty gap (indent ++ gap) x ;;
               ts <- members rest ;;
               Ok (match t with Some s => member gap k s :: ts | None => ts end)
           | ThrowingAccessor _ true e :: _ => Throw e
           | _ :: rest => members rest
           end) props ;;
      Ok (Some (wrap "{" "}" gap indent (indent ++ gap) items))
  end.

Fixpoint spaces (n : nat) : string :=
  match n with
  | O => EmptyString
  | S m => String " "%char (spaces m)
  end.

(** [JSON.stringify(v, null, space)] for a numeric [space]. *)
Definition stringify (v : value) (space : nat) : result value :=
  t <- SerializeJSONProperty (spaces (Nat.min 10 space)) EmptyString v ;;
  Ok (match t with Some s => VString s | None => VUndefined end).

End JSON.

(** ** Effects: the console, the HTTP response and the provider *)

(** What a request handler can change: the response ([res.status],
    [res.json]), the calls made to the provider, and the console. *)
Record world := mkWorld {
  status : nat;
  sent : option value;
  provider_calls : list value;
  console : list (string * value)
}.

Definition initial_world : world :=
  {| status := 200; sent := None; provider_calls := []; console := [] |}.

Definition M (A : Type) : Type := world -> world * result A.

Definition lift {A} (r : result A) : M A := fun w => (w, r).

Definition mbind {A B} (m : M A) (k : A -> M B) : M B :=
  fun w =>
    match m w with
    | (w', Ok a) => k a w'
    | (w', Throw e) => (w', Throw e)
    end.

Notation "x <~ m ;; k" := (mbind m (fun x => k))
  (at level 61, m at next level, right associativity).
Notation "m ;;; k" := (mbind m (fun _ => k))
  (at level 61, right associativity).

(** [try { m } catch (err) { handler err }] *)
Definition try_catch {A} (m : M A) (handler : value -> M A) : M A :=
  fun w =>
    match m w with
    | (w', Ok a) => (w', Ok a)
    | (w', Throw e) => handler e w'
    end.

(** [console.error(label, err)] *)
Definition console_error (label : string) (err : value) : M unit :=
  fun w =>
    ({| status := status w; sent := sent w;
        provider_calls := provider_calls w;
        console := console w ++ [(label, err)] |}, Ok tt).

(** ** The response extractor *)

(** The initialiser of [const text]. *)
Definition text_of (data : value) : result value :=
  Ok data ?. "response" ?. "candidates" ?.[0] ?. "content" ?. "parts" ?.[0] ?. "text"
  ?? Ok data ?. "candidates" ?.[0] ?. "content" ?. "parts" ?.[0] ?. "text"
  ?? Ok data ?. "response" ?. "candidates" ?.[0] ?. "content" ?. "text".

Definition extractGeneratedText (data : value) : M value :=
  try_catch
    (text <~ lift (text_of data) ;;
     lift (Ok text ?? JSON.stringify data 2))
    (fun err =>
       console_error "Galat ketika mengambil text:" err ;;;
       lift (JSON.stringify data 2)).

(** *** Candidate paths, in the words of the specification *)

Definition path := list string.

(** Following a path of field lookups from [v]; a null or undefined value
    on the way ends the walk with undefined. *)
Fixpoint walk (p : path) (v : value) : result value :=
  match p with
  | [] => Ok v
  | k :: rest =>
      if is_nullish v then Ok VUndefined
      else x <- Get v k ;; walk rest x
  end.

(** Plain lookups along the path lead from the first value to the last. *)
Inductive reaches : value -> path -> value -> Prop :=
| reaches_here (v : value) : reaches v [] v
| reaches_step (v x y : value) (k : string) (p : path) :
    Get v k = Ok x -> reaches x p y -> reaches v (k :: p) y.

(** The path resolves to the defined, non-null value [v]. *)
Definition resolves (p : path) (data v : value) : Prop :=
  walk p data = Ok v /\ is_nullish v = false.

(** The path is probed without a fault and yields null or undefined. *)
Definition absent (p : path) (data : value) : Prop :=
  exists v, walk p data = Ok v /\ is_nullish v = true.

(** [response.candidates[0].content.parts[0].text] *)
Definition path1 : path :=
  ["response"; "candidates"; "0"; "content"; "parts"; "0"; "text"].

(** [candidates[0].content.parts[0].text] *)
Definition path2 : path :=
  ["candidates"; "0"; "content"; "parts"; "0"; "text"].

(** [response.candidates[0].content.text] *)
Definition path3 : path :=
  ["response"; "candidates"; "0"; "content"; "text"].

Definition candidate_paths : list path := [path1; path2; path3].

(** The value of running [m] from [w], and the world it leaves. *)
Definition value_of {A} (m : M A) (w : world) : result A := snd (m w).
Definition world_after {A} (m : M A) (w : world) : world := fst (m w).

(** ** Buffers and base64 *)

Module Base64.

Definition alphabet : string :=
  "ABCDEFGHIJKLMNOPQRSTUVWXYZabcdefghijklmnopqrstuvwxyz0123456789+/".

Definition pad : ascii := "="%char.

(** The character of a 6-bit group. *)
Definition sextet_char (n : nat) : ascii :=
  match String.get n alphabet with
  | Some c => c
  | None => pad
  end.

Fixpoint index_of (c : ascii) (s : string) : option nat :=
  match s with
  | EmptyString => None
  | String d rest =>
      if Ascii.eqb c d then Some 0 else option_map S (index_of c rest)
  end.

(** The 6-bit group of a character of the alphabet. *)
Definition char_sextet (c : ascii) : option nat := index_of c alphabet.

(** [buffer.toString("base64")]: three bytes give four characters, and a
    last group of one or two bytes is padded with [=]. *)
Fixpoint encode (bytes : list byte) : string :=
  match bytes with
  | [] => EmptyString
  | [a] =>
      let a := Byte.to_nat a in
      String (sextet_char (a / 4))
        (String (sextet_char (a mod 4 * 16))
           (String pad (String pad EmptyString)))
  | [a; b] =>
      let a := Byte.to_nat a in
      let b := Byte.to_nat b in
      String (sextet_char (a / 4))
        (String (sextet_char (a mod 4 * 16 + b / 16))
           (String (sextet_char (b mod 16 * 4))
              (String pad EmptyString)))
  | a :: b :: c :: rest =>
      let a := Byte.to_nat a in
      let b := Byte.to_nat b in
      let c := Byte.to_nat c in
      String (sextet_char (a / 4))
        (String (sextet_char (a mod 4 * 16 + b / 16))
           (String (sextet_char (b mod 16 * 4 + c / 64))
              (String (sextet_char (c mod 64)) (encode rest))))
  end.

Definition option_bind {A B} (o : option A) (k : A -> option B) : option B :=
  match o with
  | Some a => k a
  | None => None
  end.

(** The decoder of the receiving side: four characters give three bytes,
    and a padded last group gives one or two. *)
Fixpoint decode (s : string) : option (list byte) :=
  match s with
  | EmptyString => Some []
  | String c1 (String c2 (String c3 (String c4 rest))) =>
      option_bind (char_sextet c1) (fun s1 =>
      option_bind (char_sextet c2) (fun s2 =>
      option_bind (Byte.of_nat (s1 * 4 + s2 / 16)) (fun a =>
      if Ascii.eqb c3 pad then
        if Ascii.eqb c4 pad && String.eqb rest EmptyString
        then Some [a] else None
      else
      option_bind (char_sextet c3) (fun s3 =>
      option_bind (Byte.of_nat (s2 mod 16 * 16 + s3 / 4)) (fun b =>
      if Ascii.eqb c4 pad then
        if String.eqb rest EmptyString then Some [a; b] else None
      else
      option_bind (char_sextet c4) (fun s4 =>
      option_bind (Byte.of_nat (s3 mod 4 * 64 + s4)) (fun c =>
      option_map (fun bytes => a :: b :: c :: bytes) (decode rest))))))))
  | _ => None
  end.

(** The check that a 6-bit group survives the alphabet and is not the
    padding character; it is run on the 64 groups in the proofs. *)
Definition sextet_ok (n : nat) : bool :=
  match char_sextet (sextet_char n) with
  | Some m => Nat.eqb m n
  | None => false
  end && negb (Ascii.eqb (sextet_char n) pad).

End Base64.

(** ** The request normalizer *)

(** [req.file] as the upload middleware leaves it: the bytes in memory and
    the declared content type. *)
Record upload := mkUpload {
  buffer : list byte;
  mimetype : string
}.

(** [req]: the parsed body, and the file when one was uploaded. *)
Record request := mkRequest {
  body : value;
  file : option upload
}.

Definition fileToGenerativePart (buffer : list byte) (mimeType : string) : value :=
  VObject [
    field "inlineData" (VObject [
      field "data" (VString (Base64.encode buffer));
      field "mimeType" (VString mimeType)])].

(** [const { prompt } = req.body] *)
Definition destructure (v : value) (k : string) : result value :=
  match v with
  | VUndefined =>
      Throw (TypeError ("Cannot destructure property '" ++ k
                        ++ "' of 'req.body' as it is undefined."))
  | VNull =>
      Throw (TypeError ("Cannot destructure property '" ++ k
                        ++ "' of 'req.body' as it is null."))
  | _ => Get v k
  end.

(** [res.status(code)] *)
Definition res_status (code : nat) : M unit :=
  fun w =>
    ({| status := code; sent := sent w;
        provider_calls := provider_calls w; console := console w |}, Ok tt).

(** [res.json(v)]: serializes [v] and sends it; a second send raises. *)
Definition res_json (v : value) : M unit :=
  fun w =>
    match sent w with
    | Some _ =>
        (w, Throw (Error "Cannot set headers after they are sent to the client"))
    | None =>
        match JSON.stringify v 0 with
        | Ok _ =>
            ({| status := status w; sent := Some v;
                provider_calls := provider_calls w; console := console w |},
             Ok tt)
        | Throw e => (w, Throw e)
        end
    end.

(** [{ message: m }] *)
Definition message_body (m : value) : value := VObject [field "message" m].

(** [{ result: r }] *)
Definition result_body (r : value) : value := VObject [field "result" r].

Section Handlers.

(** The provider client: what awaiting [model.generateContent(x)] gives, a
    response or a thrown error. *)
Variable provider : value -> result value.

(** [await model.generateContent(x)] *)
Definition generateContent (x : value) : M value :=
  fun w =>
    ({| status := status w; sent := sent w;
        provider_calls := provider_calls w ++ [x]; console := console w |},
     provider x).

(** The [catch (err)] block of every handler. *)
Definition on_error (label : string) (err : value) : M unit :=
  console_error label err ;;;
  res_status 500 ;;;
  message <~ lift (Get err "message") ;;
  res_json (message_body message).

(** Two steps that the four [try] blocks share, named for the proofs:
    [return res.status(400).json({ message })], and the end of a block
    (call the provider, extract the text, send it). *)
Definition reject (message : string) : M unit :=
  res_status 400 ;;; res_json (message_body (VString message)).

Definition forward (x : value) : M unit :=
  result <~ generateContent x ;;
  text <~ extractGeneratedText result ;;
  res_json (result_body text).

(** The [try] block of POST /generate-text. *)
Definition generate_text_body (req : request) : M unit :=
  prompt <~ lift (destructure (body req) "prompt") ;;
  if negb (truthy prompt) then
    res_status 400 ;;; res_json (message_body (VString "Belum ada prompt yang diisi!"))
  else
    result <~ generateContent prompt ;;
    text <~ extractGeneratedText result ;;
    res_json (result_body text).

Definition generate_text (req : request) : M unit :=
  try_catch (generate_text_body req) (on_error "Error in /generate-text:").

(** The [try] block of POST /generate-from-image. *)
Definition generate_from_image_body (req : request) : M unit :=
  prompt <~ lift (destructure (body req) "prompt") ;;
  if negb (truthy prompt) then
    res_status 400 ;;; res_json (message_body (VString "Belum ada prompt yang diisi!"))
  else
    match file req with
    | None =>
        res_status 400 ;;; res_json (message_body (VString "File 'image' harus di-upload!"))
    | Some f =>
        let imagePart := fileToGenerativePart (buffer f) (mimetype f) in
        result <~ generateContent (VArray [prompt; imagePart]) ;;
        text <~ extractGeneratedText result ;;
        res_json (result_body text)
    end.

Definition generate_from_image (req : request) : M unit :=
  try_catch (generate_from_image_body req) (on_error "Error in /generate-from-image:").

(** The [try] block of POST /generate-from-document. *)
Definition generate_from_document_body (req : request) : M unit :=
  given <~ lift (Get (body req) "prompt") ;;
  let prompt := or_else given (VString "Ringkas dokumen ini") in
  match file req with
  | None =>
      res_status 400 ;;; res_json (message_body (VString "File 'document' harus di-upload!"))
  | Some f =>
      let documentPart := fileToGenerativePart (buffer f) (mimetype f) in
      result <~ generateContent (VArray [prompt; documentPart]) ;;
      text <~ extractGeneratedText result ;;
      res_json (result_body text)
  end.

Definition generate_from_document (req : request) : M unit :=
  try_catch (generate_from_document_body req)
    (on_error "Error in /generate-from-document:").

(** The [try] block of POST /generate-from-audio. *)
Definition generate_from_audio_body (req : request) : M unit :=
  given <~ lift (Get (body req) "prompt") ;;
  let prompt := or_else given (VString "Transkripsikan audio ini") in
  match file req with
  | None =>
      res_status 400 ;;; res_json (message_body (VString "File 'audio' harus di-upload!"))
  | Some f =>
      let audioPart := fileToGenerativePart (buffer f) (mimetype f) in
      result <~ generateContent (VArray [prompt; audioPart]) ;;
      text <~ extractGeneratedText result ;;
      res_json (result_body text)
  end.

Definition generate_from_audio (req : request) : M unit :=
  try_catch (generate_from_audio_body req)
    (on_error "Error in /generate-from-audio:").

(** The POST routes. *)
Inductive endpoint :=
| GenerateText
| GenerateFromImage
| GenerateFromDocument
| GenerateFromAudio.

Definition try_block (ep : endpoint) : request -> M unit :=
  match ep with
  | GenerateText => generate_text_body
  | GenerateFromImage => generate_from_image_body
  | GenerateFromDocument => generate_from_document_body
  | GenerateFromAudio => generate_from_audio_body
  end.

(** The label each handler logs a caught error under. *)
Definition error_label (ep : endpoint) : string :=
  match ep with
  | GenerateText => "Error in /generate-text:"
  | GenerateFromImage => "Error in /generate-from-image:"
  | GenerateFromDocument => "Error in /generate-from-document:"
  | GenerateFromAudio => "Error in /generate-from-audio:"
  end.

Definition route (ep : endpoint) : request -> M unit :=
  match ep with
  | GenerateText => generate_text
  | GenerateFromImage => generate_from_image
  | GenerateFromDocument => generate_from_document
  | GenerateFromAudio => generate_from_audio
  end.

End Handlers.

(** ** The data model of the specification *)

(** GenerationPart: a text or a binary blob tagged with a media type. *)
Inductive GenerationPart :=
| Text (s : string)
| Blob (bytes : list byte) (media_type : string).

(** The part a provider reads from one element of its argument: a string is
    a text, and [{ inlineData: { data, mimeType } }] is a blob whose bytes
    are the base64 decoding of [data]. *)
Definition part_of (v : value) : option GenerationPart :=
  match v with
  | VString s => Some (Text s)
  | VObject _ =>
      match Get v "inlineData" with
      | Ok inline =>
          match Get inline "data", Get inline "mimeType" with
          | Ok (VString data), Ok (VString media_type) =>
              option_map (fun bytes => Blob bytes media_type) (Base64.decode data)
          | _, _ => None
          end
      | Throw _ => None
      end
  | _ => None
  end.

Fixpoint parts_of (items : list value) : option (list GenerationPart) :=
  match items with
  | [] => Some []
  | x :: rest =>
      match part_of x, parts_of rest with
      | Some p, Some ps => Some (p :: ps)
      | _, _ => None
      end
  end.

(** GenerationRequest: the ordered parts of the argument of
    [generateContent], a lone string being a single text. *)
Definition GenerationRequest_of (x : value) : option (list GenerationPart) :=
  match x with
  | VString s => Some [Text s]
  | VArray items => parts_of items
  | _ => None
  end.

(** Trimming, which the specification asks of a prompt: white space and
    line terminators are dropped at both ends. *)
Definition is_space (c : ascii) : bool :=
  existsb (Nat.eqb (nat_of_ascii c)) [9; 10; 11; 12; 13; 32; 160].

Fixpoint trim_start (s : string) : string :=
  match s with
  | EmptyString => EmptyString
  | String c rest => if is_space c then trim_start rest else s
  end.

Definition reverse (s : string) : string :=
  string_of_list_ascii (rev (list_ascii_of_string s)).

Definition trim (s : string) : string :=
  reverse (trim_start (reverse (trim_start s))).

(** ** Plain data *)

(** Number.MAX_SAFE_INTEGER *)
Definition max_safe_integer : Z := 9007199254740991.

Definition safe_number (n : number) : bool :=
  match n with
  | Int z => Z.leb (Z.abs z) max_safe_integer
  | NaN | Infinity _ => true
  end.

Definition is_function (v : value) : bool :=
  match v with
  | VFunction => true
  | _ => false
  end.

(** A value as [JSON.parse] builds it, possibly decorated with methods
    other than [toJSON]: anywhere inside, no BigInt, no accessor, no
    callable member named [toJSON], and no integer beyond the safe ones.
    On such a value the serialization written above is the one of
    [JSON.stringify]. *)
Fixpoint plain (v : value) : bool :=
  match v with
  | VBigInt _ => false
  | VNumber n => safe_number n
  | VArray elems => forallb plain elems
  | VObject props =>
      forallb (fun p =>
                 match p with
                 | DataProperty k _ x =>
                     plain x && negb (String.eqb k "toJSON" && is_function x)
                 | ThrowingAccessor _ _ _ => false
                 end) props
  | _ => true
  end.

(** The messages of the 400 answers. *)
Definition rejection_messages : list string :=
  ["Belum ada prompt yang diisi!"; "File 'image' harus di-upload!";
   "File 'document' harus di-upload!"; "File 'audio' harus di-upload!"].

(** ** Sample responses, providers and requests *)

Definition candidates_with (content : value) : value :=
  VArray [VObject [field "content" content]].

Definition parts_with (t : value) : value :=
  VObject [field "parts" (VArray [VObject [field "text" t]])].

(** [{ response: { candidates: [{ content: { text: "three" } }] },
       candidates: [{ content: { parts: [{ text: "two" }] } }] }] *)
Definition response_two_and_three : value :=
  VObject [
    field "response" (VObject [
      field "candidates" (candidates_with (VObject [field "text" (VString "three")]))]);
    field "candidates" (candidates_with (parts_with (VString "two")))].

(** [{ response: { candidates: [{ content: { parts: [{ text: "" }] } }] } }] *)
Definition response_empty_text : value :=
  VObject [
    field "response" (VObject [
      field "candidates" (candidates_with (parts_with (VString EmptyString)))])].

(** [{ error: "quota" }] *)
Definition response_without_text : value :=
  VObject [field "error" (VString "quota")].

(** [{ tokens: 1n }] *)
Definition response_with_bigint : value :=
  VObject [field "tokens" (VBigInt 1)].

(** [{ response: { candidates: [{ content: { parts: [{ text: answer }] } }] } }] *)
Definition response_with_text (answer : string) : value :=
  VObject [
    field "response" (VObject [
      field "candidates" (candidates_with (parts_with (VString answer)))])].

(** A provider that answers every request with the same text. *)
Definition provider_answers (answer : string) (x : value) : result value :=
  Ok (response_with_text answer).

(** A provider that rejects every request with [new Error(message)]. *)
Definition provider_fails (message : string) (x : value) : result value :=
  Throw (Error message).

(** [{ prompt: p }] *)
Definition body_with_prompt (p : string) : value :=
  VObject [field "prompt" (VString p)].

Definition png : upload :=
  {| buffer := [x89; x50; x4e; x47]; mimetype := "image/png" |}.

(* VERIFICATION *)

(** * Verification *)

(** ** JSON.stringify never yields an empty text *)

Lemma number_to_json_nonempty (n : number) : JSON.number_to_json n <> EmptyString.
Proof.
  destruct n as [z| |b]; simpl; try discriminate.
  destruct (Z.to_int z) as [d|d]; simpl; [|discriminate].
  destruct d; simpl; discriminate.
Qed.

Lemma wrap_nonempty (c : ascii) (o gap stepback indent closing : string)
    (items : list string) :
  JSON.wrap (String c o) closing gap stepback indent items <> EmptyString.
Proof.
  unfold JSON.wrap.
  destruct items; [|destruct (String.eqb gap EmptyString)]; simpl; discriminate.
Qed.

Lemma serialize_nonempty (gap indent : string) (v : value) (t : string) :
  JSON.SerializeJSONProperty gap indent v = Ok (Some t) -> t <> EmptyString.
Proof.
  destruct v as [| |b|n|z|s| | |elems|props]; simpl; try discriminate.
  - intros [= <-]; discriminate.
  - destruct b; intros [= <-]; discriminate.
  - intros [= <-]; apply number_to_json_nonempty.
  - intros [= <-]; discriminate.
  - match goal with |- bind ?r _ = _ -> _ => destruct r as [items|e] end;
      simpl; [|discriminate].
    intros [= <-]; apply wrap_nonempty.
  - match goal with |- bind ?r _ = _ -> _ => destruct r as [items|e] end;
      simpl; [|discriminate].
    intros [= <-]; apply wrap_nonempty.
Qed.

Lemma stringify_nonempty (v : value) (space : nat) (s : string) :
  JSON.stringify v space = Ok (VString s) -> s <> EmptyString.
Proof.
  unfold JSON.stringify.
  destruct (JSON.SerializeJSONProperty _ _ v) as [[t|]|e] eqn:E; simpl;
    try discriminate.
  intros [= <-]. eapply serialize_nonempty; eassumption.
Qed.

(** ** Properties of the extractor *)

Lemma chain_throw (p : path) (e : value) :
  fold_left opt_get p (Throw e) = Throw e.
Proof. induction p as [|k p IH]; simpl; auto. Qed.

Lemma chain_undefined (p : path) :
  fold_left opt_get p (Ok VUndefined) = Ok VUndefined.
Proof. induction p as [|k p IH]; simpl; auto. Qed.

(** A chain of [?.] lookups is a walk along the path of its keys. *)
Lemma chain_walk (p : path) (v : value) :
  fold_left opt_get p (Ok v) = walk p v.
Proof.
  revert v; induction p as [|k p IH]; intros v; simpl; [reflexivity|].
  destruct (is_nullish v).
  - apply chain_undefined.
  - destruct (Get v k) as [x|e]; simpl; [apply IH | apply chain_throw].
Qed.

Lemma text_of_walk (data : value) :
  text_of data = walk path1 data ?? walk path2 data ?? walk path3 data.
Proof.
  rewrite <- !chain_walk. reflexivity.
Qed.

(** What the extractor returns, by cases on [text]. *)
Lemma extract_value (data : value) (w : world) :
  value_of (extractGeneratedText data) w =
  match text_of data with
  | Ok text => if is_nullish text then JSON.stringify data 2 else Ok text
  | Throw _ => JSON.stringify data 2
  end.
Proof.
  unfold value_of, extractGeneratedText, try_catch, mbind, lift, console_error.
  destruct (text_of data) as [text|e]; simpl.
  - destruct (is_nullish text); simpl; [|reflexivity].
    destruct (JSON.stringify data 2); reflexivity.
  - reflexivity.
Qed.

(** A found text is returned as it is, and nothing is logged. *)
Lemma extract_found (data : value) (w : world) (text : value) :
  text_of data = Ok text -> is_nullish text = false ->
  extractGeneratedText data w = (w, Ok text).
Proof.
  intros Ht Hn.
  unfold extractGeneratedText, try_catch, mbind, lift.
  rewrite Ht; simpl. rewrite Hn. reflexivity.
Qed.

Lemma absent_coalesce (p : path) (data : value) (r : result value) :
  absent p data -> walk p data ?? r = r.
Proof.
  intros (v & Hw & Hn). unfold coalesce. rewrite Hw; simpl. now rewrite Hn.
Qed.

Lemma resolves_coalesce (p : path) (data v : value) (r : result value) :
  resolves p data v -> walk p data ?? r = Ok v.
Proof.
  intros (Hw & Hn). unfold coalesce. rewrite Hw; simpl. now rewrite Hn.
Qed.

Lemma coalesce_found (v : value) (r : result value) :
  is_nullish v = false -> Ok v ?? r = Ok v.
Proof. intros Hn. unfold coalesce; simpl. now rewrite Hn. Qed.

(** The first path that resolves, the earlier ones being absent, gives
    [text]. *)
Lemma text_of_first_resolved (data v : value) (i : nat) (p : path) :
  nth_error candidate_paths i = Some p ->
  (forall j q, j < i -> nth_error candidate_paths j = Some q -> absent q data) ->
  resolves p data v ->
  text_of data = Ok v.
Proof.
  intros Hp Hearlier Hres. rewrite text_of_walk.
  pose proof (proj2 Hres) as Hn.
  destruct i as [|[|[|i]]]; simpl in Hp.
  - injection Hp as <-.
    rewrite (resolves_coalesce _ _ _ _ Hres). now apply coalesce_found.
  - injection Hp as <-.
    rewrite (absent_coalesce path1) by (apply (Hearlier 0); [lia | reflexivity]).
    now apply resolves_coalesce.
  - injection Hp as <-.
    rewrite (absent_coalesce path1) by (apply (Hearlier 0); [lia | reflexivity]).
    rewrite (absent_coalesce path2) by (apply (Hearlier 1); [lia | reflexivity]).
    apply Hres.
  - destruct i; discriminate.
Qed.

(** When [text] is null or undefined, every path was absent. *)
Lemma text_of_nullish (data text : value) :
  text_of data = Ok text -> is_nullish text = true ->
  forall p, In p candidate_paths -> absent p data.
Proof.
  rewrite text_of_walk. unfold coalesce, bind. intros Ht Hn.
  destruct (walk path1 data) as [x1|] eqn:E1; [|discriminate].
  destruct (is_nullish x1) eqn:N1.
  - destruct (walk path2 data) as [x2|] eqn:E2; [|discriminate].
    destruct (is_nullish x2) eqn:N2.
    + intros p [<-|[<-|[<-|[]]]]; unfold absent; fold path1 path2 path3; eauto.
    + injection Ht as ->. congruence.
  - simpl in Ht. rewrite N1 in Ht. injection Ht as ->. congruence.
Qed.

(** When no path resolves, [text] is null, undefined or a fault. *)
Lemma text_of_unresolved (data text : value) :
  (forall p v, In p candidate_paths -> ~ resolves p data v) ->
  text_of data = Ok text -> is_nullish text = true.
Proof.
  intros Hnone. rewrite text_of_walk. unfold coalesce, bind. intros Ht.
  destruct (is_nullish text) eqn:Hn; [reflexivity|exfalso].
  destruct (walk path1 data) as [x1|] eqn:E1; [|discriminate].
  destruct (is_nullish x1) eqn:N1.
  - destruct (walk path2 data) as [x2|] eqn:E2; [|discriminate].
    destruct (is_nullish x2) eqn:N2.
    + apply (Hnone path3 text); [simpl; auto | split; assumption].
    + injection Ht as <-. apply (Hnone path2 x2); [simpl; auto | split; assumption].
  - simpl in Ht. rewrite N1 in Ht. injection Ht as <-.
    apply (Hnone path1 x1); [simpl; auto | split; assumption].
Qed.

(** A path resolves to [v] exactly when plain lookups along it reach [v]
    and [v] is neither null nor undefined. *)
Lemma resolves_reaches (p : path) (data v : value) :
  resolves p data v <-> reaches data p v /\ is_nullish v = false.
Proof.
  unfold resolves. revert data. induction p as [|k p IH]; intros data; simpl.
  - split.
    + intros [[= ->] Hn]. split; [constructor | exact Hn].
    + intros [Hr Hn]. inversion Hr; subst. auto.
  - split.
    + intros [Hw Hn]. destruct (is_nullish data) eqn:Hd.
      * injection Hw as <-. discriminate.
      * destruct (Get data k) as [x|e] eqn:Hg; simpl in Hw; [|discriminate].
        destruct (proj1 (IH x) (conj Hw Hn)) as [Hr _].
        split; [econstructor; eassumption | exact Hn].
    + intros [Hr Hn]. inversion Hr as [|? x ? ? ? Hg Hr']; subst.
      destruct (is_nullish data) eqn:Hd.
      * destruct data; try discriminate Hd; discriminate Hg.
      * rewrite Hg; simpl. apply IH. auto.
Qed.

Lemma absent_undefined (p : path) (data : value) :
  walk p data = Ok VUndefined -> absent p data.
Proof. intros H; exists VUndefined; split; [exact H | reflexivity]. Qed.

(** C1: the extractor probes the three candidate paths
    response.candidates[0].content.parts[0].text,
    candidates[0].content.parts[0].text and
    response.candidates[0].content.text in this order and returns the value
    of the first one that resolves to a defined, non-null value, the earlier
    ones having yielded nothing; when all three yield nothing, no further
    path is tried and the serialization of the input is the result. *)
Theorem extract_first_resolving_path (data : value) (w : world) :
  candidate_paths =
    [ ["response"; "candidates"; "0"; "content"; "parts"; "0"; "text"];
      ["candidates"; "0"; "content"; "parts"; "0"; "text"];
      ["response"; "candidates"; "0"; "content"; "text"] ] /\
  (forall (i : nat) (p : path) (v : value),
      nth_error candidate_paths i = Some p ->
      (forall j q, j < i -> nth_error candidate_paths j = Some q -> absent q data) ->
      resolves p data v ->
      extractGeneratedText data w = (w, Ok v)) /\
  ((forall p, In p candidate_paths -> absent p data) ->
   value_of (extractGeneratedText data) w = JSON.stringify data 2).
Proof.
  split; [reflexivity|split].
  - intros i p v Hp Hearlier Hres.
    apply extract_found; [|apply Hres].
    eapply text_of_first_resolved; eassumption.
  - intros Habsent. rewrite extract_value, text_of_walk.
    rewrite (absent_coalesce path1) by (apply Habsent; simpl; auto).
    rewrite (absent_coalesce path2) by (apply Habsent; simpl; auto).
    destruct (Habsent path3) as (x & -> & ->); [simpl; auto|reflexivity].
Qed.

Lemma extract_first_resolving_path_witness :
  absent path1 response_two_and_three /\
  resolves path2 response_two_and_three (VString "two") /\
  resolves path3 response_two_and_three (VString "three") /\
  extractGeneratedText response_two_and_three initial_world
  = (initial_world, Ok (VString "two")).
Proof.
  assert (H1 : absent path1 response_two_and_three)
    by (apply absent_undefined; reflexivity).
  split; [exact H1|].
  split; [split; reflexivity|].
  split; [split; reflexivity|].
  apply (proj1 (proj2 (extract_first_resolving_path response_two_and_three
                         initial_world)) 1 path2).
  - reflexivity.
  - intros j q Hj Hq. destruct j as [|j]; [|lia].
    injection Hq as <-. exact H1.
  - split; reflexivity.
Defined.

(** X16: on an input on which none of the three paths resolves to a
    defined, non-null value (each yields null or undefined, or faults) the
    extractor completes as JSON.stringify(data, null, 2) does, and a text
    so returned is never empty; on an input whose serialization does not
    throw, the extractor does not throw. *)
Theorem extract_fallback_is_serialization (data : value) (w : world) :
  ((forall p v, In p candidate_paths -> ~ resolves p data v) ->
   value_of (extractGeneratedText data) w = JSON.stringify data 2 /\
   forall s, JSON.stringify data 2 = Ok (VString s) -> s <> EmptyString) /\
  ((forall e, JSON.stringify data 2 <> Throw e) ->
   forall e, value_of (extractGeneratedText data) w <> Throw e).
Proof.
  split.
  - intros Hnone. split; [|intros s; apply stringify_nonempty].
    rewrite extract_value.
    destruct (text_of data) as [text|e] eqn:Ht; [|reflexivity].
    now rewrite (text_of_unresolved data text Hnone Ht).
  - intros Hser e. rewrite extract_value.
    destruct (text_of data) as [text|e'] eqn:Ht; [|apply Hser].
    destruct (is_nullish text); [apply Hser | discriminate].
Qed.

Lemma extract_fallback_is_serialization_witness :
  value_of (extractGeneratedText response_without_text) initial_world
  = JSON.stringify response_without_text 2 /\
  JSON.stringify response_without_text 2
  = Ok (VString (String.concat JSON.newline
                   ["{"; "  " ++ JSON.quote ++ "error" ++ JSON.quote ++ ": "
                              ++ JSON.quote ++ "quota" ++ JSON.quote; "}"])).
Proof.
  split; [|reflexivity].
  apply (proj1 (extract_fallback_is_serialization response_without_text
                  initial_world)).
  intros p v [<-|[<-|[<-|[]]]] [Hw Hn]; vm_compute in Hw;
    injection Hw as <-; discriminate.
Defined.

(** C2: the extractor is meant to return the dump whenever no path
    resolves and never to throw, but on [{ tokens: 1n }] no path resolves,
    the serialization throws inside [try], is caught and logged, and the
    [catch] block repeats the same serialization, which throws again: the
    TypeError reaches the caller. *)
Lemma extract_throws_on_bigint :
  (forall p, In p candidate_paths -> absent p response_with_bigint) /\
  extractGeneratedText response_with_bigint initial_world
  = ({| status := 200; sent := None; provider_calls := [];
        console := [("Galat ketika mengambil text:",
                     TypeError "Do not know how to serialize a BigInt")] |},
     Throw (TypeError "Do not know how to serialize a BigInt")).
Proof.
  split; [|reflexivity].
  intros p [<-|[<-|[<-|[]]]]; apply absent_undefined; reflexivity.
Qed.

(** On [undefined] no path resolves and the serialization is [undefined]
    itself, which the extractor returns. *)
Example extract_undefined :
  extractGeneratedText VUndefined initial_world = (initial_world, Ok VUndefined).
Proof. reflexivity. Qed.

(** A getter that raises on a property that is not enumerable: the fault
    is caught and logged, and the dump leaves the property out. *)
Example extract_catches_probing_fault :
  extractGeneratedText
    (VObject [ThrowingAccessor "response" false (Error "boom");
              field "note" VNull]) initial_world
  = ({| status := 200; sent := None; provider_calls := [];
        console := [("Galat ketika mengambil text:", Error "boom")] |},
     Ok (VString (String.concat JSON.newline
                    ["{"; "  " ++ JSON.quote ++ "note" ++ JSON.quote ++ ": null"; "}"]))).
Proof. reflexivity. Qed.

(** C10: a candidate path that resolves to the empty string makes the
    extractor return the empty string, which is not the serialized dump; and
    whenever [text] is evaluated, the dump is used only when [text] is null
    or undefined, in which case every candidate path yielded null or
    undefined. *)
Theorem extract_returns_empty_text (data : value) (w : world) :
  (forall (i : nat) (p : path),
      nth_error candidate_paths i = Some p ->
      (forall j q, j < i -> nth_error candidate_paths j = Some q -> absent q data) ->
      walk p data = Ok (VString EmptyString) ->
      extractGeneratedText data w = (w, Ok (VString EmptyString)) /\
      JSON.stringify data 2 <> Ok (VString EmptyString)) /\
  (forall text, text_of data = Ok text ->
      (is_nullish text = false /\ extractGeneratedText data w = (w, Ok text)) \/
      (is_nullish text = true /\
       (forall p, In p candidate_paths -> absent p data) /\
       value_of (extractGeneratedText data) w = JSON.stringify data 2)).
Proof.
  split.
  - intros i p Hp Hearlier Hw. split.
    + apply extract_found; [|reflexivity].
      apply (text_of_first_resolved data _ i p Hp Hearlier).
      split; [exact Hw | reflexivity].
    + intros H. now apply stringify_nonempty in H.
  - intros text Ht. destruct (is_nullish text) eqn:Hn.
    + right. split; [reflexivity|]. split.
      * eapply text_of_nullish; eassumption.
      * rewrite extract_value, Ht, Hn. reflexivity.
    + left. split; [reflexivity|]. now apply extract_found.
Qed.

Lemma extract_returns_empty_text_witness :
  walk path1 response_empty_text = Ok (VString EmptyString) /\
  extractGeneratedText response_empty_text initial_world
  = (initial_world, Ok (VString EmptyString)).
Proof.
  split; [reflexivity|].
  apply (proj1 (extract_returns_empty_text response_empty_text initial_world)
           0 path1).
  - reflexivity.
  - intros j q Hj. lia.
  - reflexivity.
Defined.


(** ** The base64 round trip *)

Section Base64RoundTrip.

Import Base64.

(** Quotients and remainders by constants are left to [lia]. *)
Ltac Zify.zify_post_hook ::= Z.to_euclidean_division_equations.

Lemma sextets_ok : forallb sextet_ok (seq 0 64) = true.
Proof. vm_compute. reflexivity. Qed.

Lemma sextet_ok_lt (n : nat) : n < 64 -> sextet_ok n = true.
Proof.
  intros Hn. apply (proj1 (forallb_forall _ _) sextets_ok).
  apply in_seq. lia.
Qed.

Lemma char_sextet_sextet_char (n : nat) :
  n < 64 -> char_sextet (sextet_char n) = Some n.
Proof.
  intros Hn. pose proof (sextet_ok_lt n Hn) as H. unfold sextet_ok in H.
  apply andb_prop in H as [H _].
  destruct (char_sextet (sextet_char n)) as [m|]; [|discriminate].
  apply Nat.eqb_eq in H. now subst.
Qed.

Lemma sextet_char_not_pad (n : nat) :
  n < 64 -> Ascii.eqb (sextet_char n) pad = false.
Proof.
  intros Hn. pose proof (sextet_ok_lt n Hn) as H. unfold sextet_ok in H.
  apply andb_prop in H as [_ H]. now apply negb_true_iff in H.
Qed.

(** Lists are taken three elements at a time. *)
Lemma list_ind3 {A} (P : list A -> Prop) :
  P [] -> (forall a, P [a]) -> (forall a b, P [a; b]) ->
  (forall a b c l, P l -> P (a :: b :: c :: l)) ->
  forall l, P l.
Proof.
  intros H0 H1 H2 H3.
  refine (fix go (l : list A) : P l :=
            match l with
            | [] => H0
            | [a] => H1 a
            | [a; b] => H2 a b
            | a :: b :: c :: rest => H3 a b c rest (go rest)
            end).
Qed.

Lemma decode_group (c1 c2 c3 c4 : ascii) (rest : string) :
  decode (String c1 (String c2 (String c3 (String c4 rest)))) =
  option_bind (char_sextet c1) (fun s1 =>
  option_bind (char_sextet c2) (fun s2 =>
  option_bind (Byte.of_nat (s1 * 4 + s2 / 16)) (fun a =>
  if Ascii.eqb c3 pad then
    if Ascii.eqb c4 pad && String.eqb rest EmptyString
    then Some [a] else None
  else
  option_bind (char_sextet c3) (fun s3 =>
  option_bind (Byte.of_nat (s2 mod 16 * 16 + s3 / 4)) (fun b =>
  if Ascii.eqb c4 pad then
    if String.eqb rest EmptyString then Some [a; b] else None
  else
  option_bind (char_sextet c4) (fun s4 =>
  option_bind (Byte.of_nat (s3 mod 4 * 64 + s4)) (fun c =>
  option_map (fun bytes => a :: b :: c :: bytes) (decode rest)))))))).
Proof. reflexivity. Qed.

Lemma of_nat_eq (n : nat) (b : byte) : n = Byte.to_nat b -> Byte.of_nat n = Some b.
Proof. intros ->. apply Byte.of_to_nat. Qed.

(** One step of decoding a group that [encode] produced. *)
Ltac decode_step :=
  first
    [ rewrite char_sextet_sextet_char by lia
    | rewrite sextet_char_not_pad by lia
    | match goal with
      | x : byte |- context [Byte.of_nat ?n] => rewrite (of_nat_eq n x) by lia
      end ];
  cbn [option_bind].

(** Decoding the base64 text of a buffer gives back its bytes. *)
Lemma decode_encode (bytes : list byte) : decode (encode bytes) = Some bytes.
Proof.
  induction bytes as [|a|a b|a b c rest IH] using list_ind3.
  - reflexivity.
  - pose proof (Byte.to_nat_bounded a).
    cbn [encode]. rewrite decode_group.
    repeat decode_step. reflexivity.
  - pose proof (Byte.to_nat_bounded a). pose proof (Byte.to_nat_bounded b).
    cbn [encode]. rewrite decode_group.
    repeat decode_step. reflexivity.
  - pose proof (Byte.to_nat_bounded a). pose proof (Byte.to_nat_bounded b).
    pose proof (Byte.to_nat_bounded c).
    cbn [encode]. rewrite decode_group.
    repeat decode_step. rewrite IH. reflexivity.
Qed.

End Base64RoundTrip.

(** ** Running the handlers *)

Section HandlerRuns.

Variable provider : value -> result value.

Arguments JSON.stringify : simpl never.
Arguments extractGeneratedText : simpl never.
Arguments Get : simpl never.

Lemma destructure_Get (v : value) (k : string) (p : value) :
  Get v k = Ok p -> destructure v k = Ok p.
Proof. destruct v; simpl; auto; discriminate. Qed.

(** The extractor touches nothing but the console. *)
Lemma extract_world (data : value) (w : world) :
  status (world_after (extractGeneratedText data) w) = status w /\
  sent (world_after (extractGeneratedText data) w) = sent w /\
  provider_calls (world_after (extractGeneratedText data) w) = provider_calls w.
Proof.
  unfold world_after, extractGeneratedText, try_catch, mbind, lift, console_error.
  destruct (text_of data) as [text|e]; simpl.
  - destruct (is_nullish text); [destruct (JSON.stringify data 2)|]; simpl; auto.
  - auto.
Qed.

(** Sending a message of text always succeeds on a fresh response. *)
Lemma send_message (m : string) (w : world) :
  sent w = None ->
  res_json (message_body (VString m)) w =
  ({| status := status w; sent := Some (message_body (VString m));
      provider_calls := provider_calls w; console := console w |}, Ok tt).
Proof. intros H. unfold res_json. rewrite H. reflexivity. Qed.

(** The [catch] block answers 500 and calls nobody. *)
Lemma on_error_world (label : string) (e : value) (w : world) :
  status (world_after (on_error label e) w) = 500 /\
  provider_calls (world_after (on_error label e) w) = provider_calls w.
Proof.
  unfold world_after, on_error, mbind, lift, console_error, res_status, res_json.
  simpl. destruct (Get e "message") as [m|e']; simpl; [|auto].
  destruct (sent w); simpl; [auto|].
  destruct (JSON.stringify (message_body m) 0); simpl; auto.
Qed.

Lemma forward_world (x : value) (w : world) :
  let w' := world_after (forward provider x) w in
  status w' = status w /\ provider_calls w' = (provider_calls w ++ [x])%list /\
  (forall e, value_of (forward provider x) w = Throw e -> sent w' = sent w).
Proof.
  unfold world_after, value_of, forward, mbind, generateContent.
  destruct (provider x) as [result|e]; simpl; [|auto].
  match goal with |- context [extractGeneratedText result ?w1] =>
    pose proof (extract_world result w1) as (Hs & Hsent & Hc);
    unfold world_after in Hs, Hsent, Hc;
    destruct (extractGeneratedText result w1) as [w2 [text|e]]
  end; simpl in *; [|auto].
  unfold res_json. rewrite Hsent.
  destruct (sent w); simpl; [auto|].
  destruct (JSON.stringify (result_body text) 0); simpl; auto.
  repeat split; auto. discriminate.
Qed.

Lemma try_forward_world (x : value) (label : string) (w : world) :
  let w' := world_after (try_catch (forward provider x) (on_error label)) w in
  (status w' = status w \/ status w' = 500) /\
  provider_calls w' = (provider_calls w ++ [x])%list.
Proof.
  pose proof (forward_world x w) as (Hs & Hc & _).
  unfold world_after, try_catch in *.
  destruct (forward provider x w) as [w1 [u|e]]; simpl in *; [auto|].
  pose proof (on_error_world label e w1) as [Hs' Hc'].
  unfold world_after in Hs', Hc'. rewrite Hs', Hc'. auto.
Qed.

(** [try { const x = r; rest }]: a pure first step either raises into the
    handler or hands its value to the rest of the block. *)
Lemma try_bind_pure {A B} (r : result A) (k : A -> M B) (h : value -> M B)
    (w : world) :
  try_catch (mbind (lift r) k) h w =
  match r with
  | Ok a => try_catch (k a) h w
  | Throw e => h e w
  end.
Proof. destruct r; reflexivity. Qed.

Lemma reject_run (message : string) (h : value -> M unit) :
  try_catch (reject message) h initial_world =
  ({| status := 400; sent := Some (message_body (VString message));
      provider_calls := []; console := [] |}, Ok tt).
Proof. reflexivity. Qed.

Lemma reject_never_throws (message : string) (w : world) (w' : world) (e : value) :
  sent w = None -> reject message w <> (w', Throw e).
Proof.
  intros Hs. unfold reject, mbind, res_status; simpl.
  rewrite send_message by exact Hs. discriminate.
Qed.

Lemma generate_text_run (req : request) (w : world) :
  generate_text provider req w =
  match destructure (body req) "prompt" with
  | Ok prompt =>
      if truthy prompt
      then try_catch (forward provider prompt) (on_error "Error in /generate-text:") w
      else try_catch (reject "Belum ada prompt yang diisi!")
             (on_error "Error in /generate-text:") w
  | Throw e => on_error "Error in /generate-text:" e w
  end.
Proof.
  unfold generate_text, generate_text_body. rewrite try_bind_pure.
  destruct (destructure (body req) "prompt") as [p|e]; [|reflexivity].
  destruct (truthy p); reflexivity.
Qed.

Lemma generate_from_image_run (req : request) (w : world) :
  generate_from_image provider req w =
  match destructure (body req) "prompt" with
  | Ok prompt =>
      if truthy prompt then
        match file req with
        | Some f =>
            try_catch
              (forward provider (VArray [prompt; fileToGenerativePart (buffer f) (mimetype f)]))
              (on_error "Error in /generate-from-image:") w
        | None =>
            try_catch (reject "File 'image' harus di-upload!")
              (on_error "Error in /generate-from-image:") w
        end
      else try_catch (reject "Belum ada prompt yang diisi!")
             (on_error "Error in /generate-from-image:") w
  | Throw e => on_error "Error in /generate-from-image:" e w
  end.
Proof.
  unfold generate_from_image, generate_from_image_body. rewrite try_bind_pure.
  destruct (destructure (body req) "prompt") as [p|e]; [|reflexivity].
  destruct (truthy p); [|reflexivity].
  destruct (file req); reflexivity.
Qed.

Lemma generate_from_document_run (req : request) (w : world) :
  generate_from_document provider req w =
  match Get (body req) "prompt" with
  | Ok given =>
      match file req with
      | Some f =>
          try_catch
            (forward provider (VArray [or_else given (VString "Ringkas dokumen ini");
                              fileToGenerativePart (buffer f) (mimetype f)]))
            (on_error "Error in /generate-from-document:") w
      | None =>
          try_catch (reject "File 'document' harus di-upload!")
            (on_error "Error in /generate-from-document:") w
      end
  | Throw e => on_error "Error in /generate-from-document:" e w
  end.
Proof.
  unfold generate_from_document, generate_from_document_body.
  rewrite try_bind_pure.
  destruct (Get (body req) "prompt") as [p|e]; [|reflexivity].
  destruct (file req); reflexivity.
Qed.

Lemma generate_from_audio_run (req : request) (w : world) :
  generate_from_audio provider req w =
  match Get (body req) "prompt" with
  | Ok given =>
      match file req with
      | Some f =>
          try_catch
            (forward provider (VArray [or_else given (VString "Transkripsikan audio ini");
                              fileToGenerativePart (buffer f) (mimetype f)]))
            (on_error "Error in /generate-from-audio:") w
      | None =>
          try_catch (reject "File 'audio' harus di-upload!")
            (on_error "Error in /generate-from-audio:") w
      end
  | Throw e => on_error "Error in /generate-from-audio:" e w
  end.
Proof.
  unfold generate_from_audio, generate_from_audio_body.
  rewrite try_bind_pure.
  destruct (Get (body req) "prompt") as [p|e]; [|reflexivity].
  destruct (file req); reflexivity.
Qed.

(** On a fresh response, a forwarded request is answered 200 or 500 and
    the provider is called once, with that request. *)
Lemma forwarded (x : value) (label : string) :
  let w' := world_after (try_catch (forward provider x) (on_error label)) initial_world in
  status w' <> 400 /\ provider_calls w' = [x].
Proof.
  pose proof (try_forward_world x label initial_world) as [Hs Hc].
  simpl in *. split; [|exact Hc].
  destruct Hs as [-> | ->]; discriminate.
Qed.

End HandlerRuns.

(** ** The request handlers *)

Lemma truthy_string (s : string) : s <> EmptyString -> truthy (VString s) = true.
Proof. destruct s; simpl; congruence. Qed.

Lemma or_else_falsy (given default : value) :
  truthy given = false -> or_else given default = default.
Proof. unfold or_else. now intros ->. Qed.

Lemma route_try_catch (provider : value -> result value) (ep : endpoint)
    (req : request) :
  route provider ep req =
  try_catch (try_block provider ep req) (on_error (error_label ep)).
Proof. destruct ep; reflexivity. Qed.

(** A [try] block that raises has sent nothing. *)
Lemma try_block_throw_unsent (provider : value -> result value) (ep : endpoint)
    (req : request) (w : world) (e : value) :
  try_block provider ep req initial_world = (w, Throw e) -> sent w = None.
Proof.
  assert (Hfwd : forall x, forward provider x initial_world = (w, Throw e) ->
                           sent w = None).
  { intros x H. pose proof (forward_world provider x initial_world) as (_ & _ & Hs).
    unfold world_after, value_of in Hs. rewrite H in Hs. now apply (Hs e). }
  assert (Hrej : forall m, reject m initial_world = (w, Throw e) -> sent w = None).
  { intros m H. now apply reject_never_throws in H. }
  destruct ep; simpl try_block;
    unfold generate_text_body, generate_from_image_body,
      generate_from_document_body, generate_from_audio_body, mbind at 1, lift.
  - destruct (destructure (body req) "prompt") as [p|e']; [|now intros [= <- _]].
    destruct (truthy p); simpl negb; cbv iota; [apply Hfwd | apply Hrej].
  - destruct (destructure (body req) "prompt") as [p|e']; [|now intros [= <- _]].
    destruct (truthy p); simpl negb; cbv iota; [|apply Hrej].
    destruct (file req); [apply Hfwd | apply Hrej].
  - destruct (Get (body req) "prompt") as [p|e']; [|now intros [= <- _]].
    cbv zeta. destruct (file req); [apply Hfwd | apply Hrej].
  - destruct (Get (body req) "prompt") as [p|e']; [|now intros [= <- _]].
    cbv zeta. destruct (file req); [apply Hfwd | apply Hrej].
Qed.

(** X17: on /generate-text, when the prompt read from the body is
    undefined or the empty string, the request is answered 400 and the
    provider is not called; whenever the provider is called, the prompt was
    read and found truthy, and the call carries that prompt. *)
Theorem generate_text_rejects_missing_prompt
    (provider : value -> result value) (req : request) :
  (forall p, Get (body req) "prompt" = Ok p ->
     p = VUndefined \/ p = VString EmptyString ->
     generate_text provider req initial_world =
     ({| status := 400;
         sent := Some (message_body (VString "Belum ada prompt yang diisi!"));
         provider_calls := []; console := [] |}, Ok tt)) /\
  (forall x,
     In x (provider_calls (world_after (generate_text provider req) initial_world)) ->
     exists p, destructure (body req) "prompt" = Ok p /\ truthy p = true /\ x = p).
Proof.
  split.
  - intros p Hget Hp. rewrite generate_text_run, (destructure_Get _ _ _ Hget).
    destruct Hp as [-> | ->]; reflexivity.
  - intros x. unfold world_after. rewrite generate_text_run.
    destruct (destructure (body req) "prompt") as [p|e].
    + destruct (truthy p) eqn:Hp.
      * pose proof (forwarded provider p "Error in /generate-text:") as [_ Hc].
        unfold world_after in Hc. rewrite Hc. intros [<- | []]. eauto.
      * rewrite reject_run. intros [].
    + pose proof (on_error_world "Error in /generate-text:" e initial_world) as [_ Hc].
      unfold world_after in Hc. rewrite Hc. intros [].
Qed.

Lemma generate_text_rejects_missing_prompt_witness :
  Get (VObject []) "prompt" = Ok VUndefined /\
  generate_text (provider_answers "halo")
    {| body := VObject []; file := None |} initial_world =
  ({| status := 400;
      sent := Some (message_body (VString "Belum ada prompt yang diisi!"));
      provider_calls := []; console := [] |}, Ok tt).
Proof.
  split; [reflexivity|].
  apply (proj1 (generate_text_rejects_missing_prompt (provider_answers "halo")
                  {| body := VObject []; file := None |}) VUndefined).
  - reflexivity.
  - left. reflexivity.
Defined.

(** X18: on /generate-from-image, /generate-from-document and
    /generate-from-audio, when the prompt can be read from the body, a
    request without the file is answered 400 with a message, and the
    provider is not called. *)
Theorem missing_attachment_is_rejected
    (provider : value -> result value) (ep : endpoint) (req : request)
    (p : value) :
  ep <> GenerateText ->
  file req = None ->
  Get (body req) "prompt" = Ok p ->
  let w := world_after (route provider ep req) initial_world in
  status w = 400 /\ provider_calls w = [] /\
  (exists m, sent w = Some (message_body (VString m))) /\
  value_of (route provider ep req) initial_world = Ok tt.
Proof.
  intros Hep Hfile Hget.
  destruct ep; [contradiction| | |]; unfold world_after, value_of, route.
  - rewrite generate_from_image_run, (destructure_Get _ _ _ Hget), Hfile.
    destruct (truthy p); rewrite reject_run; simpl; eauto.
  - rewrite generate_from_document_run, Hget, Hfile, reject_run; simpl; eauto.
  - rewrite generate_from_audio_run, Hget, Hfile, reject_run; simpl; eauto.
Qed.

Lemma missing_attachment_is_rejected_witness :
  let req := {| body := body_with_prompt "ringkas"; file := None |} in
  let w := world_after (route (provider_answers "halo") GenerateFromDocument req)
             initial_world in
  status w = 400 /\ provider_calls w = [] /\
  (exists m, sent w = Some (message_body (VString m))) /\
  value_of (route (provider_answers "halo") GenerateFromDocument req)
    initial_world = Ok tt.
Proof.
  apply (missing_attachment_is_rejected (provider_answers "halo")
           GenerateFromDocument
           {| body := body_with_prompt "ringkas"; file := None |}
           (VString "ringkas")).
  - discriminate.
  - reflexivity.
  - reflexivity.
Defined.

(** What the document and audio handlers forward when a file came. *)
Lemma document_forwards (provider : value -> result value) (req : request)
    (f : upload) (given : value) :
  file req = Some f -> Get (body req) "prompt" = Ok given ->
  let w := world_after (generate_from_document provider req) initial_world in
  status w <> 400 /\
  provider_calls w =
    [VArray [or_else given (VString "Ringkas dokumen ini");
             fileToGenerativePart (buffer f) (mimetype f)]].
Proof.
  intros Hfile Hget. unfold world_after.
  rewrite generate_from_document_run, Hget, Hfile. apply forwarded.
Qed.

Lemma audio_forwards (provider : value -> result value) (req : request)
    (f : upload) (given : value) :
  file req = Some f -> Get (body req) "prompt" = Ok given ->
  let w := world_after (generate_from_audio provider req) initial_world in
  status w <> 400 /\
  provider_calls w =
    [VArray [or_else given (VString "Transkripsikan audio ini");
             fileToGenerativePart (buffer f) (mimetype f)]].
Proof.
  intros Hfile Hget. unfold world_after.
  rewrite generate_from_audio_run, Hget, Hfile. apply forwarded.
Qed.

Lemma image_forwards (provider : value -> result value) (req : request)
    (f : upload) (prompt : value) :
  file req = Some f -> Get (body req) "prompt" = Ok prompt ->
  truthy prompt = true ->
  let w := world_after (generate_from_image provider req) initial_world in
  status w <> 400 /\
  provider_calls w =
    [VArray [prompt; fileToGenerativePart (buffer f) (mimetype f)]].
Proof.
  intros Hfile Hget Ht. unfold world_after.
  rewrite generate_from_image_run, (destructure_Get _ _ _ Hget), Ht, Hfile.
  apply forwarded.
Qed.

(** The parts of a text followed by an encoded file. *)
Lemma parts_of_text_and_file (s : string) (f : upload) :
  GenerationRequest_of
    (VArray [VString s; fileToGenerativePart (buffer f) (mimetype f)])
  = Some [Text s; Blob (buffer f) (mimetype f)].
Proof.
  unfold GenerationRequest_of, parts_of, part_of, fileToGenerativePart.
  cbn -[Base64.decode Base64.encode]. rewrite decode_encode. reflexivity.
Qed.

(** C3: with a text prompt and a file, each of the three file endpoints
    gives the provider exactly two parts, the text and then the blob; the
    blob carries the base64 text of the file, which decodes to the bytes of
    the file, and the declared content type unchanged. *)
Theorem normalizer_text_then_blob
    (provider : value -> result value) (ep : endpoint) (req : request)
    (f : upload) (s : string) :
  ep <> GenerateText ->
  file req = Some f ->
  Get (body req) "prompt" = Ok (VString s) ->
  s <> EmptyString ->
  let x := VArray [VString s;
                   VObject [field "inlineData" (VObject [
                     field "data" (VString (Base64.encode (buffer f)));
                     field "mimeType" (VString (mimetype f))])]] in
  provider_calls (world_after (route provider ep req) initial_world) = [x] /\
  GenerationRequest_of x = Some [Text s; Blob (buffer f) (mimetype f)] /\
  Base64.decode (Base64.encode (buffer f)) = Some (buffer f).
Proof.
  intros Hep Hfile Hget Hs x.
  pose proof (truthy_string s Hs) as Ht.
  split; [|split; [apply parts_of_text_and_file | apply decode_encode]].
  destruct ep; [contradiction| | |]; unfold route.
  - apply (image_forwards provider req f (VString s) Hfile Hget Ht).
  - pose proof (document_forwards provider req f _ Hfile Hget) as [_ Hc].
    rewrite Hc. unfold or_else. rewrite Ht. reflexivity.
  - pose proof (audio_forwards provider req f _ Hfile Hget) as [_ Hc].
    rewrite Hc. unfold or_else. rewrite Ht. reflexivity.
Qed.

Lemma normalizer_text_then_blob_witness :
  let req := {| body := body_with_prompt "apa ini"; file := Some png |} in
  provider_calls
    (world_after (route (provider_answers "halo") GenerateFromImage req)
       initial_world)
  = [VArray [VString "apa ini";
             VObject [field "inlineData" (VObject [
               field "data" (VString "iVBORw==");
               field "mimeType" (VString "image/png")])]]] /\
  GenerationRequest_of
    (VArray [VString "apa ini";
             VObject [field "inlineData" (VObject [
               field "data" (VString "iVBORw==");
               field "mimeType" (VString "image/png")])]])
  = Some [Text "apa ini"; Blob [x89; x50; x4e; x47] "image/png"] /\
  Base64.decode "iVBORw==" = Some [x89; x50; x4e; x47].
Proof.
  apply (normalizer_text_then_blob (provider_answers "halo") GenerateFromImage
           {| body := body_with_prompt "apa ini"; file := Some png |}
           png "apa ini").
  - discriminate.
  - reflexivity.
  - reflexivity.
  - discriminate.
Defined.

(** C6: when the prompt field is omitted, /generate-from-document forwards
    "Ringkas dokumen ini" (summarize this document) and /generate-from-audio
    forwards "Transkripsikan audio ini" (transcribe this audio) in its
    place; the two defaults differ, and the request is not answered 400. *)
Theorem omitted_prompt_gets_default
    (provider : value -> result value) (req : request) (f : upload) :
  file req = Some f ->
  Get (body req) "prompt" = Ok VUndefined ->
  (let w := world_after (generate_from_document provider req) initial_world in
   status w <> 400 /\
   provider_calls w =
     [VArray [VString "Ringkas dokumen ini";
              fileToGenerativePart (buffer f) (mimetype f)]]) /\
  (let w := world_after (generate_from_audio provider req) initial_world in
   status w <> 400 /\
   provider_calls w =
     [VArray [VString "Transkripsikan audio ini";
              fileToGenerativePart (buffer f) (mimetype f)]]) /\
  "Ringkas dokumen ini" <> "Transkripsikan audio ini".
Proof.
  intros Hfile Hget. split; [|split; [|discriminate]].
  - apply (document_forwards provider req f VUndefined Hfile Hget).
  - apply (audio_forwards provider req f VUndefined Hfile Hget).
Qed.

Lemma omitted_prompt_gets_default_witness :
  let req := {| body := VObject []; file := Some png |} in
  provider_calls
    (world_after (generate_from_document (provider_answers "halo") req)
       initial_world)
  = [VArray [VString "Ringkas dokumen ini"; fileToGenerativePart [x89; x50; x4e; x47] "image/png"]] /\
  provider_calls
    (world_after (generate_from_audio (provider_answers "halo") req)
       initial_world)
  = [VArray [VString "Transkripsikan audio ini"; fileToGenerativePart [x89; x50; x4e; x47] "image/png"]].
Proof.
  pose proof (omitted_prompt_gets_default (provider_answers "halo")
                {| body := VObject []; file := Some png |} png
                eq_refl eq_refl) as (Hdoc & Haudio & _).
  split; [apply Hdoc | apply Haudio].
Defined.

(** C9: on /generate-from-document and /generate-from-audio a prompt that
    is present but falsy (the empty string among them) is replaced by the
    default of the endpoint, exactly as an omitted one; and no call to the
    provider on these endpoints carries a falsy prompt. *)
Theorem falsy_prompt_gets_default
    (provider : value -> result value) (req : request) :
  (forall f given,
     file req = Some f ->
     Get (body req) "prompt" = Ok given ->
     truthy given = false ->
     provider_calls (world_after (generate_from_document provider req) initial_world)
     = [VArray [VString "Ringkas dokumen ini";
                fileToGenerativePart (buffer f) (mimetype f)]] /\
     provider_calls (world_after (generate_from_audio provider req) initial_world)
     = [VArray [VString "Transkripsikan audio ini";
                fileToGenerativePart (buffer f) (mimetype f)]]) /\
  (forall ep x,
     ep = GenerateFromDocument \/ ep = GenerateFromAudio ->
     In x (provider_calls (world_after (route provider ep req) initial_world)) ->
     exists prompt part,
       x = VArray [prompt; part] /\ truthy prompt = true /\
       prompt <> VString EmptyString).
Proof.
  split.
  - intros f given Hfile Hget Hfalsy. split.
    + pose proof (document_forwards provider req f given Hfile Hget) as [_ Hc].
      rewrite Hc, or_else_falsy by exact Hfalsy. reflexivity.
    + pose proof (audio_forwards provider req f given Hfile Hget) as [_ Hc].
      rewrite Hc, or_else_falsy by exact Hfalsy. reflexivity.
  - assert (Hdefault : forall given d, d <> EmptyString ->
              truthy (or_else given (VString d)) = true /\
              or_else given (VString d) <> VString EmptyString).
    { intros given d Hd. unfold or_else.
      destruct (truthy given) eqn:Hg.
      - split; [exact Hg|]. intros ->. discriminate.
      - split; [now apply truthy_string|]. congruence. }
    intros ep x [-> | ->]; unfold route, world_after.
    + rewrite generate_from_document_run.
      destruct (Get (body req) "prompt") as [given|e].
      * destruct (file req) as [f|].
        -- pose proof (forwarded provider
                         (VArray [or_else given (VString "Ringkas dokumen ini");
                                  fileToGenerativePart (buffer f) (mimetype f)])
                         "Error in /generate-from-document:") as [_ Hc].
           unfold world_after in Hc. rewrite Hc. intros [<- | []].
           destruct (Hdefault given "Ringkas dokumen ini") as [H1 H2];
             [discriminate|]. eauto.
        -- rewrite reject_run. intros [].
      * pose proof (on_error_world "Error in /generate-from-document:" e
                      initial_world) as [_ Hc].
        unfold world_after in Hc. rewrite Hc. intros [].
    + rewrite generate_from_audio_run.
      destruct (Get (body req) "prompt") as [given|e].
      * destruct (file req) as [f|].
        -- pose proof (forwarded provider
                         (VArray [or_else given (VString "Transkripsikan audio ini");
                                  fileToGenerativePart (buffer f) (mimetype f)])
                         "Error in /generate-from-audio:") as [_ Hc].
           unfold world_after in Hc. rewrite Hc. intros [<- | []].
           destruct (Hdefault given "Transkripsikan audio ini") as [H1 H2];
             [discriminate|]. eauto.
        -- rewrite reject_run. intros [].
      * pose proof (on_error_world "Error in /generate-from-audio:" e
                      initial_world) as [_ Hc].
        unfold world_after in Hc. rewrite Hc. intros [].
Qed.

Lemma falsy_prompt_gets_default_witness :
  let req := {| body := body_with_prompt EmptyString; file := Some png |} in
  truthy (VString EmptyString) = false /\
  provider_calls
    (world_after (generate_from_document (provider_answers "halo") req)
       initial_world)
  = [VArray [VString "Ringkas dokumen ini";
             fileToGenerativePart [x89; x50; x4e; x47] "image/png"]] /\
  provider_calls
    (world_after (generate_from_audio (provider_answers "halo") req)
       initial_world)
  = [VArray [VString "Transkripsikan audio ini";
             fileToGenerativePart [x89; x50; x4e; x47] "image/png"]].
Proof.
  split; [reflexivity|].
  apply (proj1 (falsy_prompt_gets_default (provider_answers "halo")
                  {| body := body_with_prompt EmptyString; file := Some png |})
           png (VString EmptyString)); reflexivity.
Defined.

(** C7, as the code has it: on /generate-text a string prompt that is not
    empty is forwarded to the provider exactly as received, as a single
    text part and without trimming, and the request is not answered 400;
    the empty string is answered 400 and nothing is forwarded. *)
Theorem generate_text_forwards_prompt_as_is
    (provider : value -> result value) (req : request) (s : string) :
  Get (body req) "prompt" = Ok (VString s) ->
  let w := world_after (generate_text provider req) initial_world in
  (s <> EmptyString ->
   provider_calls w = [VString s] /\
   GenerationRequest_of (VString s) = Some [Text s] /\
   status w <> 400) /\
  (s = EmptyString -> status w = 400 /\ provider_calls w = []).
Proof.
  intros Hget. unfold world_after.
  rewrite generate_text_run, (destructure_Get _ _ _ Hget). split.
  - intros Hs. rewrite (truthy_string s Hs).
    pose proof (forwarded provider (VString s) "Error in /generate-text:")
      as [Hstatus Hc].
    unfold world_after in Hstatus, Hc. auto.
  - intros ->. split; reflexivity.
Qed.

Lemma generate_text_forwards_prompt_as_is_witness :
  let req := {| body := body_with_prompt " hi "; file := None |} in
  let w := world_after (generate_text (provider_answers "halo") req)
             initial_world in
  provider_calls w = [VString " hi "] /\
  GenerationRequest_of (VString " hi ") = Some [Text " hi "] /\
  status w <> 400.
Proof.
  apply (proj1 (generate_text_forwards_prompt_as_is (provider_answers "halo")
                  {| body := body_with_prompt " hi "; file := None |} " hi "
                  eq_refl)).
  discriminate.
Defined.

(** C7 as stated fails: a prompt of three spaces is empty after trimming,
    yet it is answered 200 and forwarded; and the prompt " hi " is
    forwarded with its spaces, not as its trimmed form "hi". *)
Lemma generate_text_does_not_trim :
  let blank := {| body := body_with_prompt "   "; file := None |} in
  let padded := {| body := body_with_prompt " hi "; file := None |} in
  trim "   " = EmptyString /\
  generate_text (provider_answers "halo") blank initial_world =
  ({| status := 200; sent := Some (result_body (VString "halo"));
      provider_calls := [VString "   "]; console := [] |}, Ok tt) /\
  trim " hi " = "hi" /\
  provider_calls
    (world_after (generate_text (provider_answers "halo") padded) initial_world)
  = [VString " hi "] /\
  GenerationRequest_of (VString " hi ") <> Some [Text (trim " hi ")].
Proof.
  repeat split; try reflexivity. discriminate.
Qed.



(** A response that cannot be serialized makes the extractor raise; the
    handler catches it and answers 500 with the message of the error. *)
Example unserializable_answer_is_answered_500 :
  generate_text (fun _ => Ok response_with_bigint)
    {| body := body_with_prompt "halo"; file := None |} initial_world
  = ({| status := 500;
        sent := Some (message_body (VString "Do not know how to serialize a BigInt"));
        provider_calls := [VString "halo"];
        console :=
          [("Galat ketika mengambil text:",
            TypeError "Do not know how to serialize a BigInt");
           ("Error in /generate-text:",
            TypeError "Do not know how to serialize a BigInt")] |},
     Ok tt).
Proof. reflexivity. Qed.

(** A request whose body was not parsed: reading the prompt raises, and the
    handler answers 500. *)
Example unparsed_body_is_answered_500 :
  status (world_after
            (generate_text (provider_answers "halo")
               {| body := VUndefined; file := None |}) initial_world) = 500.
Proof. reflexivity. Qed.

(** * Further properties *)

(** ** Plain data never faults *)

(** Induction on values, through the lists of elements and properties. *)
Lemma value_ind_nested (P : value -> Prop) :
  P VUndefined -> P VNull -> (forall b, P (VBool b)) ->
  (forall n, P (VNumber n)) -> (forall z, P (VBigInt z)) ->
  (forall s, P (VString s)) -> P VSymbol -> P VFunction ->
  (forall elems, Forall P elems -> P (VArray elems)) ->
  (forall props,
      Forall (fun p => match p with
                       | DataProperty _ _ x => P x
                       | ThrowingAccessor _ _ e => P e
                       end) props ->
      P (VObject props)) ->
  forall v, P v.
Proof.
  intros Hu Hn Hb Hnum Hbig Hs Hsym Hf Harr Hobj.
  refine (fix go (v : value) : P v :=
            match v with
            | VUndefined => Hu
            | VNull => Hn
            | VBool b => Hb b
            | VNumber n => Hnum n
            | VBigInt z => Hbig z
            | VString s => Hs s
            | VSymbol => Hsym
            | VFunction => Hf
            | VArray elems =>
                Harr elems
                  ((fix all (l : list value) : Forall P l :=
                      match l with
                      | [] => Forall_nil _
                      | x :: rest => Forall_cons x (go x) (all rest)
                      end) elems)
            | VObject props =>
                Hobj props
                  ((fix all (l : list property) : Forall _ l :=
                      match l with
                      | [] => Forall_nil _
                      | p :: rest =>
                          Forall_cons p
                            (match p return
                                   match p with
                                   | DataProperty _ _ x => P x
                                   | ThrowingAccessor _ _ e => P e
                                   end
                             with
                             | DataProperty _ _ x => go x
                             | ThrowingAccessor _ _ e => go e
                             end) (all rest)
                      end) props)
            end).
Qed.

Lemma plain_nth (elems : list value) (i : nat) :
  forallb plain elems = true -> plain (nth i elems VUndefined) = true.
Proof.
  revert i; induction elems as [|x elems IH]; intros [|i] H; simpl in *;
    try reflexivity; apply andb_prop in H as [Hx Hrest]; auto.
Qed.

Lemma plain_lookup (k : string) (props : list property) :
  plain (VObject props) = true ->
  lookup k props = None \/
  exists key en x, lookup k props = Some (DataProperty key en x) /\ plain x = true.
Proof.
  induction props as [|p props IH]; simpl; [auto|].
  intros H. apply andb_prop in H as [Hp Hrest].
  destruct (String.eqb (property_key p) k).
  - right. destruct p as [key en x|key en e]; [|discriminate].
    apply andb_prop in Hp as [Hx _]. eauto.
  - apply IH. exact Hrest.
Qed.

(** Reading a member other than [length] of a plain value that is
    neither null nor undefined gives a plain value and never raises. *)
Lemma plain_Get (v : value) (k : string) :
  plain v = true -> is_nullish v = false -> String.eqb k "length" = false ->
  exists x, Get v k = Ok x /\ plain x = true.
Proof.
  intros Hp Hn Hk.
  destruct v as [| |b|n|z|s| | |elems|props]; simpl in *; try discriminate;
    eauto.
  - destruct (array_index k) as [i|].
    + destruct (String.get i s); eauto.
    + rewrite Hk. eauto.
  - destruct (array_index k) as [i|].
    + eexists; split; [reflexivity | now apply plain_nth].
    + rewrite Hk. eauto.
  - destruct (plain_lookup k props Hp) as [-> | (key & en & x & -> & Hx)]; eauto.
Qed.

Lemma plain_walk (p : path) (v : value) :
  forallb (fun k => negb (String.eqb k "length")) p = true ->
  plain v = true -> exists x, walk p v = Ok x /\ plain x = true.
Proof.
  revert v; induction p as [|k p IH]; intros v Hk Hp; simpl; [eauto|].
  simpl in Hk. apply andb_prop in Hk as [Hk Hrest].
  apply negb_true_iff in Hk.
  destruct (is_nullish v) eqn:Hn; [eauto|].
  destruct (plain_Get v k Hp Hn Hk) as (x & -> & Hx); simpl. now apply IH.
Qed.

Lemma plain_text_of (data : value) :
  plain data = true -> exists t, text_of data = Ok t /\ plain t = true.
Proof.
  intros Hp. rewrite text_of_walk. unfold coalesce, bind.
  destruct (plain_walk path1 data eq_refl Hp) as (x1 & -> & H1).
  destruct (plain_walk path2 data eq_refl Hp) as (x2 & -> & H2).
  destruct (plain_walk path3 data eq_refl Hp) as (x3 & -> & H3).
  destruct (is_nullish x1); [|simpl; destruct (is_nullish x1); eauto].
  destruct (is_nullish x2); eauto.
Qed.

(** Serializing a plain value never raises. *)
Lemma plain_serialize (v : value) :
  plain v = true ->
  forall gap indent, exists o, JSON.SerializeJSONProperty gap indent v = Ok o.
Proof.
  induction v as [| |b|n|z|s| | |elems IH|props IH] using value_ind_nested;
    intros Hp gap indent; simpl in *; try discriminate; eauto.
  - destruct b; eauto.
  - match goal with |- context [bind ?r _] =>
      assert (Hitems : exists items, r = Ok items) end.
    { induction IH as [|x rest Hx _ IHrest]; [eauto|].
      simpl in Hp. apply andb_prop in Hp as [Hpx Hprest].
      destruct (Hx Hpx gap (indent ++ gap)) as (o & ->); simpl.
      destruct (IHrest Hprest) as (items & ->); simpl. eauto. }
    destruct Hitems as (items & ->); simpl. eauto.
  - match goal with |- context [bind ?r _] =>
      assert (Hitems : exists items, r = Ok items) end.
    { induction IH as [|p rest Hx _ IHrest]; [eauto|].
      simpl in Hp. apply andb_prop in Hp as [Hpx Hprest].
      destruct p as [key en x|key en e]; [|discriminate].
      apply andb_prop in Hpx as [Hpx _].
      destruct en; [|now apply IHrest].
      destruct (Hx Hpx gap (indent ++ gap)) as (o & ->); simpl.
      destruct (IHrest Hprest) as (items & ->); simpl.
      destruct o; eauto. }
    destruct Hitems as (items & ->); simpl. eauto.
Qed.

Lemma plain_stringify (v : value) (space : nat) :
  plain v = true ->
  exists d, JSON.stringify v space = Ok d /\ plain d = true.
Proof.
  intros Hp. unfold JSON.stringify.
  destruct (plain_serialize v Hp (JSON.spaces (Nat.min 10 space)) EmptyString)
    as (o & ->); simpl.
  destruct o; eauto.
Qed.

(** ** More on the extractor *)

(** X1: the only exception the extractor lets out is the one
    [JSON.stringify(data, null, 2)] raises on its input. *)
Theorem extract_throws_only_from_serialization
    (data : value) (w : world) (e : value) :
  value_of (extractGeneratedText data) w = Throw e ->
  JSON.stringify data 2 = Throw e.
Proof.
  rewrite extract_value.
  destruct (text_of data) as [text|e']; [|auto].
  destruct (is_nullish text); [auto | discriminate].
Qed.

Lemma extract_throws_only_from_serialization_witness :
  value_of (extractGeneratedText response_with_bigint) initial_world
  = Throw (TypeError "Do not know how to serialize a BigInt") /\
  JSON.stringify response_with_bigint 2
  = Throw (TypeError "Do not know how to serialize a BigInt").
Proof.
  split; [reflexivity|].
  apply (extract_throws_only_from_serialization response_with_bigint
           initial_world).
  reflexivity.
Defined.

(** X2: the extractor leaves the response and the provider calls alone; it
    logs nothing, or exactly one entry, the fault that probing or the
    serialization raised. *)
Theorem extract_logs_only_faults (data : value) (w : world) :
  let w' := world_after (extractGeneratedText data) w in
  status w' = status w /\ sent w' = sent w /\
  provider_calls w' = provider_calls w /\
  (w' = w \/
   exists e,
     console w' = (console w ++ [("Galat ketika mengambil text:", e)])%list /\
     (text_of data = Throw e \/
      (exists text, text_of data = Ok text /\ is_nullish text = true) /\
      JSON.stringify data 2 = Throw e)).
Proof.
  unfold world_after, extractGeneratedText, try_catch, mbind, lift, console_error.
  destruct (text_of data) as [text|e] eqn:Ht; simpl.
  - destruct (is_nullish text) eqn:Hn.
    + destruct (JSON.stringify data 2) as [d|e] eqn:Hd; simpl.
      * auto.
      * repeat split; auto. right. exists e. split; [reflexivity|].
        right. split; [eauto | reflexivity].
    + simpl. auto.
  - repeat split; auto. right. exists e. auto.
Qed.

(** On plain data the extractor returns the same value from every world,
    and leaves the world as it was. *)
Lemma extract_plain (data : value) :
  plain data = true ->
  exists v, (forall w, extractGeneratedText data w = (w, Ok v)) /\
            plain v = true /\
            (text_of data = Ok v \/ JSON.stringify data 2 = Ok v).
Proof.
  intros Hp.
  destruct (plain_text_of data Hp) as (t & Ht & Hpt).
  destruct (plain_stringify data 2 Hp) as (d & Hd & Hpd).
  unfold extractGeneratedText, try_catch, mbind, lift.
  rewrite Ht; simpl. destruct (is_nullish t) eqn:Hn.
  - rewrite Hd. eauto.
  - simpl. exists t. auto.
Qed.

(** X3: on plain data (no BigInt, no accessor, no callable [toJSON]
    member and no integer beyond the safe ones inside) the extractor
    returns normally, logs nothing, and what it returns is plain again: the
    text it found or the dump. *)
Theorem extract_total_on_plain (data : value) (w : world) :
  plain data = true ->
  exists v, extractGeneratedText data w = (w, Ok v) /\ plain v = true /\
            (text_of data = Ok v \/ JSON.stringify data 2 = Ok v).
Proof.
  intros Hp. destruct (extract_plain data Hp) as (v & He & Hv & Hor).
  exists v. auto.
Qed.

Lemma extract_total_on_plain_witness :
  exists v, extractGeneratedText response_without_text initial_world
            = (initial_world, Ok v) /\ plain v = true /\
            (text_of response_without_text = Ok v \/
             JSON.stringify response_without_text 2 = Ok v).
Proof.
  apply (extract_total_on_plain response_without_text initial_world).
  reflexivity.
Defined.

(** ** More on the handlers *)

(** What the [catch] block leaves on a response not yet sent. *)
Lemma on_error_outcome (label : string) (e : value) (w : world) :
  sent w = None ->
  exists w' r, on_error label e w = (w', r) /\
    status w' = 500 /\ provider_calls w' = provider_calls w /\
    console w' = (console w ++ [(label, e)])%list /\
    ((r = Ok tt /\ exists m, Get e "message" = Ok m /\
                             sent w' = Some (message_body m)) \/
     (exists e', r = Throw e' /\ sent w' = None)).
Proof.
  intros Hs. unfold on_error, mbind, lift, console_error, res_status, res_json.
  simpl. destruct (Get e "message") as [m|e'] eqn:Hm; simpl.
  - rewrite Hs. destruct (JSON.stringify (message_body m) 0) as [j|e'']; simpl.
    + do 2 eexists. split; [reflexivity|]. simpl. repeat split; auto.
      left. split; [reflexivity|]. eauto.
    + do 2 eexists. split; [reflexivity|]. simpl. repeat split; eauto.
  - do 2 eexists. split; [reflexivity|]. simpl. repeat split; eauto.
Qed.

(** What the end of a [try] block leaves on a response not yet sent. *)
Lemma forward_outcome (provider : value -> result value) (x : value)
    (w : world) :
  sent w = None ->
  exists w' r, forward provider x w = (w', r) /\
    status w' = status w /\
    provider_calls w' = (provider_calls w ++ [x])%list /\
    ((r = Ok tt /\ exists text, sent w' = Some (result_body text)) \/
     (exists e, r = Throw e /\ sent w' = None)).
Proof.
  intros Hs. unfold forward, mbind, generateContent.
  destruct (provider x) as [data|e]; simpl.
  - match goal with |- context [extractGeneratedText data ?w1] =>
      pose proof (extract_world data w1) as (H1 & H2 & H3);
      unfold world_after in H1, H2, H3;
      destruct (extractGeneratedText data w1) as [w2 [text|e]]
    end; simpl in *.
    + unfold res_json. rewrite H2, Hs.
      destruct (JSON.stringify (result_body text) 0); simpl;
        do 2 eexists; (split; [reflexivity|]); simpl; repeat split; eauto.
      rewrite H2. eauto.
    + do 2 eexists. split; [reflexivity|]. repeat split; eauto.
      right. exists e. rewrite H2. auto.
  - do 2 eexists. split; [reflexivity|]. simpl. repeat split; eauto.
Qed.

(** The three ways a request goes: forwarded to the provider, rejected
    with one of the 400 messages, or failed while the prompt was read. *)
Lemma route_cases (provider : value -> result value) (ep : endpoint)
    (req : request) :
  (exists x, route provider ep req initial_world =
             try_catch (forward provider x) (on_error (error_label ep))
               initial_world) \/
  (exists m, In m rejection_messages /\
             route provider ep req initial_world =
             ({| status := 400; sent := Some (message_body (VString m));
                 provider_calls := []; console := [] |}, Ok tt)) \/
  (exists e, route provider ep req initial_world =
             on_error (error_label ep) e initial_world).
Proof.
  destruct ep; unfold route.
  - rewrite generate_text_run.
    destruct (destructure (body req) "prompt") as [p|e]; [|eauto].
    destruct (truthy p); [eauto|].
    right; left. eexists. split; [|apply reject_run]. simpl; auto.
  - rewrite generate_from_image_run.
    destruct (destructure (body req) "prompt") as [p|e]; [|eauto].
    destruct (truthy p).
    + destruct (file req); [eauto|].
      right; left. eexists. split; [|apply reject_run]. simpl; auto.
    + right; left. eexists. split; [|apply reject_run]. simpl; auto.
  - rewrite generate_from_document_run.
    destruct (Get (body req) "prompt") as [p|e]; [|eauto].
    destruct (file req); [eauto|].
    right; left. eexists. split; [|apply reject_run]. simpl; auto.
  - rewrite generate_from_audio_run.
    destruct (Get (body req) "prompt") as [p|e]; [|eauto].
    destruct (file req); [eauto|].
    right; left. eexists. split; [|apply reject_run]. simpl; auto.
Qed.

(** How a forwarded request ends. *)
Lemma try_forward_outcome (provider : value -> result value) (x : value)
    (label : string) :
  exists w r,
    try_catch (forward provider x) (on_error label) initial_world = (w, r) /\
    (status w = 200 \/ status w = 500) /\ provider_calls w = [x] /\
    ((r = Ok tt /\ exists b, sent w = Some b) \/
     (exists e, r = Throw e /\ sent w = None /\ status w = 500)).
Proof.
  unfold try_catch.
  destruct (forward_outcome provider x initial_world eq_refl)
    as (w1 & r1 & -> & Hst & Hc & [[-> (text & Hs)] | (e & -> & Hs)]).
  - do 2 eexists. split; [reflexivity|]. repeat split; eauto.
  - destruct (on_error_outcome label e w1 Hs)
      as (w2 & r2 & -> & Hst2 & Hc2 & _ & [[-> (m & _ & Hs2)] | (e' & -> & Hs2)]);
      do 2 eexists; (split; [reflexivity|]); rewrite Hc2, Hc;
      repeat split; eauto.
Qed.

(** X4: whatever the request and the provider, a handler ends with status
    200, 400 or 500 and has called the provider at most once; either it
    returns normally and has sent a body, or it lets an exception out of
    its [catch] block, with status 500 set and nothing sent. *)
Theorem handler_outcome (provider : value -> result value) (ep : endpoint)
    (req : request) :
  let w := world_after (route provider ep req) initial_world in
  let r := value_of (route provider ep req) initial_world in
  (status w = 200 \/ status w = 400 \/ status w = 500) /\
  length (provider_calls w) <= 1 /\
  ((r = Ok tt /\ exists b, sent w = Some b) \/
   (exists e, r = Throw e /\ sent w = None /\ status w = 500)).
Proof.
  unfold world_after, value_of.
  destruct (route_cases provider ep req)
    as [(x & ->) | [(m & _ & ->) | (e & ->)]].
  - destruct (try_forward_outcome provider x (error_label ep))
      as (w & r & -> & Hst & Hc & Hr); simpl.
    rewrite Hc. repeat split; [tauto | simpl; lia | exact Hr].
  - simpl. repeat split; [auto | lia | eauto].
  - destruct (on_error_outcome (error_label ep) e initial_world eq_refl)
      as (w & r & -> & Hst & Hc & _ & Hr); simpl.
    rewrite Hc. repeat split; [auto | simpl; lia |].
    destruct Hr as [[-> (m & _ & Hs)] | (e' & -> & Hs)]; [eauto|].
    right. eauto.
Qed.

(** X5: an answer 400 is always one of the validation messages, sent
    without any call to the provider and without anything logged; so the
    provider is only ever called for requests that are not answered 400. *)
Theorem rejected_requests_call_nobody (provider : value -> result value)
    (ep : endpoint) (req : request) :
  status (world_after (route provider ep req) initial_world) = 400 ->
  exists m, In m rejection_messages /\
    route provider ep req initial_world =
    ({| status := 400; sent := Some (message_body (VString m));
        provider_calls := []; console := [] |}, Ok tt).
Proof.
  unfold world_after.
  destruct (route_cases provider ep req)
    as [(x & Hr) | [(m & Hm & Hr) | (e & Hr)]]; rewrite Hr.
  - destruct (try_forward_outcome provider x (error_label ep))
      as (w & r & -> & [Hst | Hst] & _); simpl; rewrite Hst; discriminate.
  - intros _. eauto.
  - destruct (on_error_outcome (error_label ep) e initial_world eq_refl)
      as (w & r & -> & Hst & _); simpl. rewrite Hst. discriminate.
Qed.

Lemma rejected_requests_call_nobody_witness :
  exists m, In m rejection_messages /\
    route (provider_answers "halo") GenerateFromAudio
      {| body := VObject []; file := None |} initial_world =
    ({| status := 400; sent := Some (message_body (VString m));
        provider_calls := []; console := [] |}, Ok tt).
Proof.
  apply (rejected_requests_call_nobody (provider_answers "halo")
           GenerateFromAudio {| body := VObject []; file := None |}).
  reflexivity.
Defined.

(** A handler that called the provider with [x] went through the end of
    its [try] block with [x]. *)
Lemma route_called (provider : value -> result value) (ep : endpoint)
    (req : request) (x : value) :
  provider_calls (world_after (route provider ep req) initial_world) = [x] ->
  route provider ep req initial_world =
  try_catch (forward provider x) (on_error (error_label ep)) initial_world.
Proof.
  unfold world_after.
  destruct (route_cases provider ep req)
    as [(x' & Hr) | [(m & _ & Hr) | (e & Hr)]]; rewrite Hr.
  - destruct (try_forward_outcome provider x' (error_label ep))
      as (w & r & Hw & _ & Hc & _).
    rewrite Hw; simpl. rewrite Hc. intros [= ->]. symmetry. exact Hw.
  - discriminate.
  - destruct (on_error_outcome (error_label ep) e initial_world eq_refl)
      as (w & r & -> & _ & Hc & _); simpl. rewrite Hc. discriminate.
Qed.

(** The end of a [try] block when the provider answers, the extractor
    returns [v] without logging, and [v] can be serialized. *)
Lemma forward_answer (provider : value -> result value) (x data v j : value)
    (label : string) :
  provider x = Ok data ->
  (forall w, extractGeneratedText data w = (w, Ok v)) ->
  JSON.stringify (result_body v) 0 = Ok j ->
  try_catch (forward provider x) (on_error label) initial_world =
  ({| status := 200; sent := Some (result_body v);
      provider_calls := [x]; console := [] |}, Ok tt).
Proof.
  intros Hp He Hj.
  unfold try_catch, forward, mbind, generateContent. rewrite Hp; simpl.
  rewrite He. unfold res_json; simpl. rewrite Hj. reflexivity.
Qed.

Lemma result_body_plain (v : value) :
  plain v = true -> exists j, JSON.stringify (result_body v) 0 = Ok j.
Proof.
  intros Hv. destruct (plain_stringify (result_body v) 0) as (j & Hj & _).
  - simpl. now rewrite Hv.
  - eauto.
Qed.

Lemma plain_answer_run (provider : value -> result value)
    (ep : endpoint) (req : request) (x data : value) :
  provider_calls (world_after (route provider ep req) initial_world) = [x] ->
  provider x = Ok data ->
  plain data = true ->
  exists v,
    value_of (extractGeneratedText data) initial_world = Ok v /\
    route provider ep req initial_world =
    ({| status := 200; sent := Some (result_body v);
        provider_calls := [x]; console := [] |}, Ok tt).
Proof.
  intros Hc Hp Hd. rewrite (route_called provider ep req x Hc).
  destruct (extract_plain data Hd) as (v & He & Hv & _).
  destruct (result_body_plain v Hv) as (j & Hj).
  exists v. split.
  - unfold value_of. now rewrite He.
  - now apply (forward_answer provider x data v j).
Qed.

(** X6: when the provider is called and answers with plain data, the
    handler answers 200 with [{ result }] holding what the extractor
    returns for that answer, and logs nothing. *)
Theorem plain_answer_is_answered_200 (provider : value -> result value)
    (ep : endpoint) (req : request) (x data : value) :
  provider_calls (world_after (route provider ep req) initial_world) = [x] ->
  provider x = Ok data ->
  plain data = true ->
  exists v,
    value_of (extractGeneratedText data) initial_world = Ok v /\
    route provider ep req initial_world =
    ({| status := 200; sent := Some (result_body v);
        provider_calls := [x]; console := [] |}, Ok tt).
Proof. exact (plain_answer_run provider ep req x data). Qed.

Lemma plain_answer_is_answered_200_witness :
  exists v,
    value_of (extractGeneratedText (response_with_text "halo")) initial_world
    = Ok v /\
    route (provider_answers "halo") GenerateText
      {| body := body_with_prompt "apa kabar"; file := None |} initial_world =
    ({| status := 200; sent := Some (result_body v);
        provider_calls := [VString "apa kabar"]; console := [] |}, Ok tt).
Proof.
  apply (plain_answer_is_answered_200 (provider_answers "halo") GenerateText
           {| body := body_with_prompt "apa kabar"; file := None |}
           (VString "apa kabar") (response_with_text "halo"));
    reflexivity.
Defined.

(** X7: when the provider is called and the first candidate path that
    resolves in its answer holds the string [s], the handler answers 200
    with [{ result: s }], whatever else the answer contains. *)
Theorem found_text_is_the_result (provider : value -> result value)
    (ep : endpoint) (req : request) (x data : value) (i : nat) (p : path)
    (s : string) :
  provider_calls (world_after (route provider ep req) initial_world) = [x] ->
  provider x = Ok data ->
  nth_error candidate_paths i = Some p ->
  (forall j q, j < i -> nth_error candidate_paths j = Some q -> absent q data) ->
  walk p data = Ok (VString s) ->
  route provider ep req initial_world =
  ({| status := 200; sent := Some (VObject [field "result" (VString s)]);
      provider_calls := [x]; console := [] |}, Ok tt).
Proof.
  intros Hc Hp Hi Hearlier Hw. rewrite (route_called provider ep req x Hc).
  apply (forward_answer provider x data (VString s)
           (VString (JSON.wrap "{" "}" EmptyString EmptyString EmptyString
                       [JSON.member EmptyString "result" (JSON.QuoteJSONString s)])));
    [exact Hp | | reflexivity].
  intros w. apply extract_found; [|reflexivity].
  apply (text_of_first_resolved data _ i p Hi Hearlier).
  split; [exact Hw | reflexivity].
Qed.

Lemma found_text_is_the_result_witness :
  route (fun _ => Ok response_two_and_three) GenerateFromImage
    {| body := body_with_prompt "apa ini"; file := Some png |} initial_world =
  ({| status := 200; sent := Some (VObject [field "result" (VString "two")]);
      provider_calls :=
        [VArray [VString "apa ini"; fileToGenerativePart [x89; x50; x4e; x47] "image/png"]];
      console := [] |}, Ok tt).
Proof.
  apply (found_text_is_the_result (fun _ => Ok response_two_and_three)
           GenerateFromImage
           {| body := body_with_prompt "apa ini"; file := Some png |}
           (VArray [VString "apa ini"; fileToGenerativePart [x89; x50; x4e; x47] "image/png"])
           response_two_and_three 1 path2 "two").
  - reflexivity.
  - reflexivity.
  - reflexivity.
  - intros j q Hj Hq. destruct j as [|j]; [|lia].
    injection Hq as <-. exists VUndefined. split; reflexivity.
  - reflexivity.
Defined.

(** X8: a plain answer in which no candidate path yields a text is not an
    error for the handler: it answers 200, and [result] is the dump
    [JSON.stringify(data, null, 2)] of the whole answer. *)
Theorem answer_without_text_is_answered_200
    (provider : value -> result value) (ep : endpoint) (req : request)
    (x data : value) :
  provider_calls (world_after (route provider ep req) initial_world) = [x] ->
  provider x = Ok data ->
  plain data = true ->
  (forall p, In p candidate_paths -> absent p data) ->
  exists d,
    JSON.stringify data 2 = Ok d /\
    route provider ep req initial_world =
    ({| status := 200; sent := Some (result_body d);
        provider_calls := [x]; console := [] |}, Ok tt).
Proof.
  intros Hc Hp Hd Habsent.
  destruct (plain_answer_run provider ep req x data Hc Hp Hd)
    as (v & Hv & Hr).
  exists v. split; [|exact Hr].
  rewrite <- Hv, extract_value, text_of_walk.
  rewrite (absent_coalesce path1) by (apply Habsent; simpl; auto).
  rewrite (absent_coalesce path2) by (apply Habsent; simpl; auto).
  destruct (Habsent path3) as (t & -> & ->); [simpl; auto | reflexivity].
Qed.

Lemma answer_without_text_is_answered_200_witness :
  exists d,
    JSON.stringify response_without_text 2 = Ok d /\
    route (fun _ => Ok response_without_text) GenerateText
      {| body := body_with_prompt "halo"; file := None |} initial_world =
    ({| status := 200; sent := Some (result_body d);
        provider_calls := [VString "halo"]; console := [] |}, Ok tt).
Proof.
  apply (answer_without_text_is_answered_200 (fun _ => Ok response_without_text)
           GenerateText {| body := body_with_prompt "halo"; file := None |}
           (VString "halo") response_without_text);
    try reflexivity.
  intros p [<-|[<-|[<-|[]]]]; exists VUndefined; split; reflexivity.
Defined.

(** X9: on /generate-from-image the prompt is checked before the file: a
    falsy prompt is answered 400 with the message of the prompt check,
    whether a file was uploaded or not, and the provider is not called. *)
Theorem image_checks_prompt_first (provider : value -> result value)
    (req : request) (p : value) :
  Get (body req) "prompt" = Ok p ->
  truthy p = false ->
  generate_from_image provider req initial_world =
  ({| status := 400;
      sent := Some (VObject [field "message" (VString "Belum ada prompt yang diisi!")]);
      provider_calls := []; console := [] |}, Ok tt).
Proof.
  intros Hget Hp.
  rewrite generate_from_image_run, (destructure_Get _ _ _ Hget), Hp.
  apply reject_run.
Qed.

Lemma image_checks_prompt_first_witness :
  generate_from_image (provider_answers "halo")
    {| body := VObject []; file := Some png |} initial_world =
  ({| status := 400;
      sent := Some (VObject [field "message" (VString "Belum ada prompt yang diisi!")]);
      provider_calls := []; console := [] |}, Ok tt).
Proof.
  apply (image_checks_prompt_first (provider_answers "halo")
           {| body := VObject []; file := Some png |} VUndefined);
    reflexivity.
Defined.

(** X10: when [req.body] is null or undefined, reading the prompt raises
    a TypeError on every endpoint: the request is answered 500 with the
    message of that error, which is logged, and the provider is not
    called, whether a file was uploaded or not. *)
Theorem unparsed_body_is_answered_500_everywhere
    (provider : value -> result value) (ep : endpoint) (req : request) :
  is_nullish (body req) = true ->
  exists m,
    route provider ep req initial_world =
    ({| status := 500; sent := Some (VObject [field "message" (VString m)]);
        provider_calls := [];
        console := [(error_label ep, TypeError m)] |}, Ok tt).
Proof.
  intros Hb.
  destruct ep; unfold route;
    rewrite ?generate_text_run, ?generate_from_image_run,
      ?generate_from_document_run, ?generate_from_audio_run;
    destruct (body req); try discriminate Hb; simpl;
    eexists; reflexivity.
Qed.

Lemma unparsed_body_is_answered_500_everywhere_witness :
  exists m,
    route (provider_answers "halo") GenerateFromDocument
      {| body := VUndefined; file := Some png |} initial_world =
    ({| status := 500; sent := Some (VObject [field "message" (VString m)]);
        provider_calls := [];
        console := [(error_label GenerateFromDocument, TypeError m)] |}, Ok tt).
Proof.
  apply (unparsed_body_is_answered_500_everywhere (provider_answers "halo")
           GenerateFromDocument {| body := VUndefined; file := Some png |}).
  reflexivity.
Defined.

(** X11: when what the [try] block raised is null or undefined, reading
    [err.message] in the [catch] block raises in turn: the handler has set
    the status 500 and logged the fault, sends nothing, and lets a
    TypeError out. *)
Theorem nullish_error_escapes (provider : value -> result value)
    (ep : endpoint) (req : request) (w : world) (e : value) :
  try_block provider ep req initial_world = (w, Throw e) ->
  is_nullish e = true ->
  exists m,
    route provider ep req initial_world =
    ({| status := 500; sent := None; provider_calls := provider_calls w;
        console := console w ++ [(error_label ep, e)] |},
     Throw (TypeError m)).
Proof.
  intros Hthrow He.
  pose proof (try_block_throw_unsent provider ep req w e Hthrow) as Hsent.
  rewrite route_try_catch. unfold try_catch. rewrite Hthrow.
  unfold on_error, mbind, console_error, res_status, lift; simpl.
  rewrite Hsent.
  destruct e; try discriminate He; simpl; eexists; reflexivity.
Qed.

Lemma nullish_error_escapes_witness :
  exists m,
    route (fun _ => Throw VNull) GenerateText
      {| body := body_with_prompt "halo"; file := None |} initial_world =
    ({| status := 500; sent := None; provider_calls := [VString "halo"];
        console := [(error_label GenerateText, VNull)] |},
     Throw (TypeError m)).
Proof.
  apply (nullish_error_escapes (fun _ => Throw VNull) GenerateText
           {| body := body_with_prompt "halo"; file := None |}
           {| status := 200; sent := None;
              provider_calls := [VString "halo"]; console := [] |} VNull);
    reflexivity.
Defined.

(** X12: a truthy prompt of any type is forwarded as it is, without a
    check that it is a string: alone on /generate-text, and followed by
    the encoded file on the three file endpoints. *)
Theorem truthy_prompt_is_forwarded_as_is (provider : value -> result value)
    (ep : endpoint) (req : request) (p : value) :
  Get (body req) "prompt" = Ok p ->
  truthy p = true ->
  (ep = GenerateText ->
   provider_calls (world_after (route provider ep req) initial_world) = [p]) /\
  (forall f, ep <> GenerateText -> file req = Some f ->
   provider_calls (world_after (route provider ep req) initial_world)
   = [VArray [p; fileToGenerativePart (buffer f) (mimetype f)]]).
Proof.
  intros Hget Hp. split.
  - intros ->. unfold route, world_after.
    rewrite generate_text_run, (destructure_Get _ _ _ Hget), Hp.
    apply (forwarded provider p).
  - intros f Hep Hfile. destruct ep; [contradiction| | |]; unfold route.
    + apply (image_forwards provider req f p Hfile Hget Hp).
    + pose proof (document_forwards provider req f p Hfile Hget) as [_ Hc].
      rewrite Hc. unfold or_else. now rewrite Hp.
    + pose proof (audio_forwards provider req f p Hfile Hget) as [_ Hc].
      rewrite Hc. unfold or_else. now rewrite Hp.
Qed.

Lemma truthy_prompt_is_forwarded_as_is_witness :
  provider_calls
    (world_after
       (route (provider_answers "halo") GenerateText
          {| body := VObject [field "prompt" (VNumber (Int 5))]; file := None |})
       initial_world)
  = [VNumber (Int 5)].
Proof.
  apply (proj1 (truthy_prompt_is_forwarded_as_is (provider_answers "halo")
                  GenerateText
                  {| body := VObject [field "prompt" (VNumber (Int 5))];
                     file := None |}
                  (VNumber (Int 5)) eq_refl eq_refl)).
  reflexivity.
Defined.

(** ** More on base64 *)

Section Base64Shape.

Import Base64.

Ltac Zify.zify_post_hook ::= Z.to_euclidean_division_equations.

(** X13: the base64 text of [n] bytes has 4 * ceil(n / 3) characters. *)
Theorem encode_length (bytes : list byte) :
  String.length (encode bytes) = 4 * ((List.length bytes + 2) / 3).
Proof.
  induction bytes as [|a|a b|a b c rest IH] using list_ind3;
    try reflexivity.
  cbn [encode String.length List.length]. rewrite IH. lia.
Qed.

Lemma sextet_char_in_alphabet (n : nat) :
  n < 64 -> index_of (sextet_char n) alphabet <> None.
Proof.
  intros Hn. fold (char_sextet (sextet_char n)).
  rewrite char_sextet_sextet_char by exact Hn. discriminate.
Qed.

(** X14: every character of a base64 text is one of the 64 characters of
    the alphabet or the padding character. *)
Theorem encode_characters (bytes : list byte) (c : ascii) :
  In c (list_ascii_of_string (encode bytes)) ->
  c = pad \/ index_of c alphabet <> None.
Proof.
  induction bytes as [|a|a b|a b c' rest IH] using list_ind3.
  - intros [].
  - pose proof (Byte.to_nat_bounded a).
    cbn [encode list_ascii_of_string].
    intros [<-|[<-|[<-|[<-|[]]]]]; auto;
      right; apply sextet_char_in_alphabet; lia.
  - pose proof (Byte.to_nat_bounded a). pose proof (Byte.to_nat_bounded b).
    cbn [encode list_ascii_of_string].
    intros [<-|[<-|[<-|[<-|[]]]]]; auto;
      right; apply sextet_char_in_alphabet; lia.
  - pose proof (Byte.to_nat_bounded a). pose proof (Byte.to_nat_bounded b).
    pose proof (Byte.to_nat_bounded c').
    cbn [encode list_ascii_of_string].
    intros [<-|[<-|[<-|[<-|Hrest]]]]; auto;
      right; apply sextet_char_in_alphabet; lia.
Qed.

Lemma encode_characters_witness :
  "V"%char = pad \/ index_of "V"%char alphabet <> None.
Proof.
  apply (encode_characters [x89; x50; x4e; x47] "V"%char).
  simpl. auto.
Defined.

(** X15: two uploads have the same part only when they have the same
    bytes and the same content type. *)
Theorem fileToGenerativePart_injective (b1 b2 : list byte) (m1 m2 : string) :
  fileToGenerativePart b1 m1 = fileToGenerativePart b2 m2 ->
  b1 = b2 /\ m1 = m2.
Proof.
  unfold fileToGenerativePart, field. intros [= He Hm]. split; [|exact Hm].
  pose proof (decode_encode b1) as H1. rewrite He, decode_encode in H1.
  now injection H1.
Qed.

Lemma fileToGenerativePart_injective_witness :
  [x68; x69] = [x68; x69] /\ "text/plain" = "text/plain".
Proof.
  apply (fileToGenerativePart_injective [x68; x69] [x68; x69]
           "text/plain" "text/plain").
  reflexivity.
Defined.

End Base64Shape.

(** ** Requests without a body, and errors without a message *)

(** C4: a POST to /generate-text without a parsed body has no prompt and
    is meant to be answered 400, but [req.body] is destructured before the
    prompt is checked: the TypeError it raises is caught and the request is
    answered 500 with the message of that error. The provider is not
    called. *)
Lemma generate_text_without_body_is_answered_500 :
  generate_text (provider_answers "halo")
    {| body := VUndefined; file := None |} initial_world =
  ({| status := 500;
      sent := Some (VObject [field "message" (VString
        "Cannot destructure property 'prompt' of 'req.body' as it is undefined.")]);
      provider_calls := [];
      console := [("Error in /generate-text:", TypeError
        "Cannot destructure property 'prompt' of 'req.body' as it is undefined.")] |},
   Ok tt).
Proof. reflexivity. Qed.

(** C5: a POST without a parsed body and without a file is meant to be
    answered 400 for the missing file, but each of the three handlers reads
    the prompt from [req.body] before it looks at the file: the TypeError
    is caught and the request is answered 500. The provider is not
    called. *)
Lemma missing_attachment_without_body_is_answered_500 :
  let req := {| body := VUndefined; file := None |} in
  generate_from_image (provider_answers "halo") req initial_world =
  ({| status := 500;
      sent := Some (VObject [field "message" (VString
        "Cannot destructure property 'prompt' of 'req.body' as it is undefined.")]);
      provider_calls := [];
      console := [("Error in /generate-from-image:", TypeError
        "Cannot destructure property 'prompt' of 'req.body' as it is undefined.")] |},
   Ok tt) /\
  generate_from_document (provider_answers "halo") req initial_world =
  ({| status := 500;
      sent := Some (VObject [field "message" (VString
        "Cannot read properties of undefined (reading 'prompt')")]);
      provider_calls := [];
      console := [("Error in /generate-from-document:", TypeError
        "Cannot read properties of undefined (reading 'prompt')")] |},
   Ok tt) /\
  generate_from_audio (provider_answers "halo") req initial_world =
  ({| status := 500;
      sent := Some (VObject [field "message" (VString
        "Cannot read properties of undefined (reading 'prompt')")]);
      provider_calls := [];
      console := [("Error in /generate-from-audio:", TypeError
        "Cannot read properties of undefined (reading 'prompt')")] |},
   Ok tt).
Proof. repeat split. Qed.

